(** * mcp-gmail: MIME construction and payload decoding (utils.ts, gmail-client.ts)

    A shallow embedding of the pure core of the repository:
    - [getHeader], [extractBody], [extractAttachments], [stripHtml] and
      [buildMimeMessage] of utils.ts;
    - the option composition of [replyToEmail] of gmail-client.ts.

    JavaScript strings are sequences of UTF-16 code units; they are modelled
    as [list Z].  The runtime primitives the source calls ([Buffer.from],
    [Buffer.toString], [String.fromCharCode], [parseInt], [Array.join],
    [String.replace], [String.trim]) are modelled first, the functions of the
    repository after them, the theorems last. *)

From Stdlib Require Import ZArith List Lia Bool String Ascii DecimalString.
Import ListNotations.
Local Open Scope Z_scope.

(* ================================================================== *)
(** * JavaScript strings *)
(* ================================================================== *)

Module JS.

(** A string value: the sequence of its UTF-16 code units. *)
Definition jsstring := list Z.

(** An ASCII literal as a string value (one code unit per character). *)
Definition lit (s : string) : jsstring :=
  map (fun a => Z.of_N (N_of_ascii a)) (list_ascii_of_string s).

Definition isCodeUnit (u : Z) : bool := (0 <=? u) && (u <? 65536).
Definition isHighSurrogate (u : Z) : bool := (55296 <=? u) && (u <=? 56319).
Definition isLowSurrogate (u : Z) : bool := (56320 <=? u) && (u <=? 57343).

(** [String.prototype.isWellFormed]: every code unit is a 16-bit value and
    every surrogate is half of a high/low pair. *)
Fixpoint isWellFormed (s : jsstring) : bool :=
  match s with
  | [] => true
  | u :: t =>
      if isHighSurrogate u then
        match t with
        | v :: t' => isLowSurrogate v && isWellFormed t'
        | [] => false
        end
      else if isLowSurrogate u then false
      else isCodeUnit u && isWellFormed t
  end.

(** Strict equality [===] on strings. *)
Fixpoint streq (a b : jsstring) : bool :=
  match a, b with
  | [], [] => true
  | x :: a', y :: b' => (x =? y) && streq a' b'
  | _, _ => false
  end.

(** Truthiness of a string value: non-empty. *)
Definition truthy (s : jsstring) : bool :=
  match s with [] => false | _ :: _ => true end.

(** Truthiness of [string | null | undefined]. *)
Definition truthyOpt (o : option jsstring) : bool :=
  match o with Some s => truthy s | None => false end.

(** [o || ''] for [o : string | undefined]. *)
Definition orEmpty (o : option jsstring) : jsstring :=
  match o with Some s => s | None => [] end.

(** [a || b] on strings. *)
Definition orElse (a b : jsstring) : jsstring :=
  if truthy a then a else b.

(** [Array.prototype.join]. *)
Fixpoint join (sep : jsstring) (l : list jsstring) : jsstring :=
  match l with
  | [] => []
  | [x] => x
  | x :: t => x ++ sep ++ join sep t
  end.

(** [String.prototype.startsWith]. *)
Fixpoint startsWith (s p : jsstring) {struct p} : bool :=
  match p, s with
  | [], _ => true
  | c :: p', d :: s' => (c =? d) && startsWith s' p'
  | _ :: _, [] => false
  end.

(** [String.fromCharCode(n)] for an integral [n]: [ToUint16], one code unit. *)
Definition fromCharCode (n : Z) : jsstring := [n mod 65536].

(** The rendering of an integral number by a template literal. *)
Definition numberToString (n : Z) : jsstring :=
  lit (NilZero.string_of_int (Z.to_int n)).

(** White space and line terminators, the class [\s] of regular
    expressions and the characters [trim] removes. *)
Definition isWhiteSpace (c : Z) : bool :=
  ((9 <=? c) && (c <=? 13)) || (c =? 32) || (c =? 160) || (c =? 5760)
  || ((8192 <=? c) && (c <=? 8202)) || (c =? 8232) || (c =? 8233)
  || (c =? 8239) || (c =? 8287) || (c =? 12288) || (c =? 65279).

Fixpoint trimStart (s : jsstring) : jsstring :=
  match s with
  | c :: t => if isWhiteSpace c then trimStart t else s
  | [] => []
  end.

(** [String.prototype.trim]. *)
Definition trim (s : jsstring) : jsstring :=
  rev (trimStart (rev (trimStart s))).

(** ** Global replacement

    [s.replace(/re/g, r)] scans [s] from the left; at each position where the
    expression matches, the match is replaced and the scan resumes after it;
    elsewhere the code unit is copied.  A [matcher] tells, for the text that
    starts at the current position, the replacement and the length of the
    match.  Every expression of this repository matches at least one code
    unit. *)
Definition matcher := jsstring -> option (jsstring * nat).

Fixpoint replaceFrom (m : matcher) (skip : nat) (s : jsstring) : jsstring :=
  match s with
  | [] => []
  | c :: t =>
      match skip with
      | S k => replaceFrom m k t
      | O =>
          match m (c :: t) with
          | Some (r, n) => r ++ replaceFrom m (Nat.pred n) t
          | None => c :: replaceFrom m 0 t
          end
      end
  end.

Definition replaceAll (m : matcher) (s : jsstring) : jsstring :=
  replaceFrom m 0 s.

(** A literal pattern, [/lit/g]. *)
Definition literal (p r : jsstring) : matcher :=
  fun s => if startsWith s p then Some (r, List.length p) else None.

End JS.
Import JS.

(* ================================================================== *)
(** * Buffer: UTF-8 and base64 *)
(* ================================================================== *)

Module Buffer.

(** Bytes are integers of [0, 256). *)
Definition isByte (b : Z) : bool := (0 <=? b) && (b <? 256).

(** The groups of six bits. *)
Definition isSextet (v : Z) : Prop := 0 <= v < 64.

(** Unicode scalar values: the code points that are no surrogates. *)
Definition isScalar (cp : Z) : Prop :=
  0 <= cp < 55296 \/ 57344 <= cp < 1114112.

(** ** UTF-8 encoding, [Buffer.from(s)] *)

(** The UTF-8 bytes of one code point. *)
Definition encodeCodePoint (cp : Z) : list Z :=
  if cp <? 128 then [cp]
  else if cp <? 2048 then [192 + cp / 64; 128 + cp mod 64]
  else if cp <? 65536 then
    [224 + cp / 4096; 128 + (cp / 64) mod 64; 128 + cp mod 64]
  else
    [240 + cp / 262144; 128 + (cp / 4096) mod 64;
     128 + (cp / 64) mod 64; 128 + cp mod 64].

(** The code point of a surrogate pair. *)
Definition pairCodePoint (hi lo : Z) : Z :=
  65536 + (hi - 55296) * 1024 + (lo - 56320).

(** U+FFFD, and its UTF-8 bytes EF BF BD. *)
Definition replacementChar : Z := 65533.
Definition replacementBytes : list Z := [239; 191; 189].

(** [Buffer.from(s, 'utf8')]: surrogate pairs are combined, an unpaired
    surrogate is encoded as U+FFFD. *)
Fixpoint utf8Encode (s : jsstring) : list Z :=
  match s with
  | [] => []
  | u :: t =>
      if isHighSurrogate u then
        match t with
        | v :: t' =>
            if isLowSurrogate v
            then encodeCodePoint (pairCodePoint u v) ++ utf8Encode t'
            else replacementBytes ++ utf8Encode t
        | [] => replacementBytes
        end
      else if isLowSurrogate u then replacementBytes ++ utf8Encode t
      else encodeCodePoint u ++ utf8Encode t
  end.

(** ** UTF-8 decoding, [buf.toString('utf-8')]

    The decoder of the Encoding standard: a code point under construction,
    the number of continuation bytes still expected and the range allowed
    for the next one.  An ill-formed sequence yields U+FFFD and the
    offending byte is read again as the start of a sequence. *)
Inductive decoderState :=
| Idle
| Pending (cp : Z) (remaining : nat) (lower upper : Z).

(** The code units of one code point. *)
Definition utf16 (cp : Z) : jsstring :=
  if cp <? 65536 then [cp]
  else [55296 + (cp - 65536) / 1024; 56320 + (cp - 65536) mod 1024].

(** A byte read with no sequence in progress. *)
Definition startByte (b : Z) : decoderState * jsstring :=
  if (0 <=? b) && (b <=? 127) then (Idle, [b])
  else if (194 <=? b) && (b <=? 223) then (Pending (b - 192) 1 128 191, [])
  else if (224 <=? b) && (b <=? 239) then
    (Pending (b - 224) 2 (if b =? 224 then 160 else 128)
                         (if b =? 237 then 159 else 191), [])
  else if (240 <=? b) && (b <=? 244) then
    (Pending (b - 240) 3 (if b =? 240 then 144 else 128)
                         (if b =? 244 then 143 else 191), [])
  else (Idle, [replacementChar]).

Definition decodeByte (st : decoderState) (b : Z) : decoderState * jsstring :=
  match st with
  | Idle => startByte b
  | Pending cp remaining lower upper =>
      if (lower <=? b) && (b <=? upper) then
        let cp' := cp * 64 + (b - 128) in
        match remaining with
        | S (S k) => (Pending cp' (S k) 128 191, [])
        | _ => (Idle, utf16 cp')
        end
      else
        let (st', out) := startByte b in (st', replacementChar :: out)
  end.

Fixpoint utf8DecodeFrom (st : decoderState) (bs : list Z) : jsstring :=
  match bs with
  | [] => match st with Idle => [] | Pending _ _ _ _ => [replacementChar] end
  | b :: t => let (st', out) := decodeByte st b in out ++ utf8DecodeFrom st' t
  end.

Definition utf8Decode (bs : list Z) : jsstring := utf8DecodeFrom Idle bs.

(** ** base64 *)

(** The standard alphabet. *)
Definition alphabet : jsstring :=
  lit "ABCDEFGHIJKLMNOPQRSTUVWXYZabcdefghijklmnopqrstuvwxyz0123456789+/".

(** The character of a 6-bit value: a look-up in the alphabet. *)
Definition base64Char (v : Z) : Z := nth (Z.to_nat v) alphabet 47.

(** The 6-bit groups of a byte sequence, three bytes to four groups; a
    final group of one or two bytes gives two or three. *)
Fixpoint sextetsOfBytes (bs : list Z) : list Z :=
  match bs with
  | b1 :: b2 :: b3 :: r =>
      [b1 / 4; (b1 mod 4) * 16 + b2 / 16; (b2 mod 16) * 4 + b3 / 64; b3 mod 64]
        ++ sextetsOfBytes r
  | [b1; b2] => [b1 / 4; (b1 mod 4) * 16 + b2 / 16; (b2 mod 16) * 4]
  | [b1] => [b1 / 4; (b1 mod 4) * 16]
  | [] => []
  end.

(** The ['='] padding of the encoding of [n] bytes. *)
Definition padding (n : nat) : jsstring :=
  match Nat.modulo n 3 with
  | 1%nat => [61; 61]
  | 2%nat => [61]
  | _ => []
  end.

(** [buf.toString('base64')]. *)
Definition toBase64 (bs : list Z) : jsstring :=
  map base64Char (sextetsOfBytes bs) ++ padding (List.length bs).

(** The value of a character of the standard or of the URL-safe alphabet;
    the decoder accepts both under either encoding name. *)
Definition base64Value (c : Z) : option Z :=
  if (65 <=? c) && (c <=? 90) then Some (c - 65)
  else if (97 <=? c) && (c <=? 122) then Some (c - 71)
  else if (48 <=? c) && (c <=? 57) then Some (c + 4)
  else if (c =? 43) || (c =? 45) then Some 62
  else if (c =? 47) || (c =? 95) then Some 63
  else None.

(** The 6-bit groups read from a string: characters outside the alphabets
    (white space, for one) are skipped and reading stops at the first
    ['=']. *)
Fixpoint sextetsOfString (s : jsstring) : list Z :=
  match s with
  | [] => []
  | c :: t =>
      if c =? 61 then []
      else match base64Value c with
           | Some v => v :: sextetsOfString t
           | None => sextetsOfString t
           end
  end.

(** Four groups to three bytes; a final group of two or three gives one or
    two bytes, a single left-over group none. *)
Fixpoint bytesOfSextets (l : list Z) : list Z :=
  match l with
  | a :: b :: c :: d :: r =>
      [a * 4 + b / 16; (b mod 16) * 16 + c / 4; (c mod 4) * 64 + d]
        ++ bytesOfSextets r
  | [a; b; c] => [a * 4 + b / 16; (b mod 16) * 16 + c / 4]
  | [a; b] => [a * 4 + b / 16]
  | _ => []
  end.

(** [Buffer.from(s, 'base64')] and [Buffer.from(s, 'base64url')]. *)
Definition fromBase64 (s : jsstring) : list Z :=
  bytesOfSextets (sextetsOfString s).

End Buffer.
Import Buffer.

(* ================================================================== *)
(** * utils.ts *)
(* ================================================================== *)

Module Utils.

Definition LF : jsstring := [10].
Definition CRLF : jsstring := [13; 10].

(** ** Data model *)

(** [gmail_v1.Schema$MessagePartHeader]. *)
Record MessagePartHeader := mkHeader {
  name : option jsstring;
  value : option jsstring
}.

(** [gmail_v1.Schema$MessagePartBody]. *)
Record MessagePartBody := mkBody {
  attachmentId : option jsstring;
  data : option jsstring;
  size : option Z
}.

(** [gmail_v1.Schema$MessagePart]: a tree, [parts] being its children. *)
#[warnings="-register-all"]
Inductive MessagePart := mkPart {
  mimeType : option jsstring;
  filename : option jsstring;
  body : option MessagePartBody;
  parts : option (list MessagePart)
}.

Record AttachmentInfo := mkAttachment {
  a_filename : jsstring;
  a_mimeType : jsstring;
  a_size : Z;
  a_attachmentId : jsstring
}.

Record MimeOptions := mkOptions {
  to : jsstring;
  subject : jsstring;
  textBody : option jsstring;
  htmlBody : option jsstring;
  cc : option jsstring;
  bcc : option jsstring;
  inReplyTo : option jsstring;
  references : option jsstring;
  threadSubject : option jsstring
}.

Record ExtractedBody := mkExtracted {
  text : jsstring;
  html : jsstring
}.

(** [payload.body?.data] and [payload.body?.attachmentId]. *)
Definition bodyData (b : option MessagePartBody) : option jsstring :=
  match b with Some b' => data b' | None => None end.

Definition bodyAttachmentId (b : option MessagePartBody) : option jsstring :=
  match b with Some b' => attachmentId b' | None => None end.

(** [m === s] for [m : string | null | undefined]. *)
Definition isString (m : option jsstring) (s : jsstring) : bool :=
  match m with Some m' => streq m' s | None => false end.

(** ** getHeader *)

Section GetHeader.

(** [String.prototype.toLowerCase], the case mapping of the runtime. *)
Variable toLowerCase : jsstring -> jsstring.

Definition getHeader (headers : option (list MessagePartHeader))
    (n : jsstring) : option jsstring :=
  match headers with
  | None => None
  | Some hs =>
      match find (fun h => match name h with
                           | Some hn => streq (toLowerCase hn) (toLowerCase n)
                           | None => false
                           end) hs with
      | Some h => value h
      | None => None
      end
  end.

End GetHeader.

(** ** extractBody *)

(** [Buffer.from(data, 'base64url').toString('utf-8')]. *)
Definition decodeInline (d : jsstring) : jsstring :=
  utf8Decode (fromBase64 d).

(** The body of the loop over [payload.parts]. *)
Definition mergeNested (acc nested : ExtractedBody) : ExtractedBody :=
  {| text := if truthy (text nested) then orElse (text acc) (text nested)
             else text acc;
     html := if truthy (html nested) then orElse (html acc) (html nested)
             else html acc |}.

Fixpoint extractBody (payload : MessagePart) : ExtractedBody :=
  match payload with
  | mkPart mt _ b ps =>
      let own :=
        if isString mt (lit "text/plain") && truthyOpt (bodyData b) then
          {| text := decodeInline (orEmpty (bodyData b)); html := [] |}
        else if isString mt (lit "text/html") && truthyOpt (bodyData b) then
          {| text := []; html := decodeInline (orEmpty (bodyData b)) |}
        else {| text := []; html := [] |} in
      match ps with
      | Some l =>
          fold_left (fun acc part => mergeNested acc (extractBody part)) l own
      | None => own
      end
  end.

(** ** extractAttachments *)

(** [payload.body.size || 0]. *)
Definition sizeOrZero (b : option MessagePartBody) : Z :=
  match b with
  | Some b' => match size b' with
               | Some n => if n =? 0 then 0 else n
               | None => 0
               end
  | None => 0
  end.

Fixpoint extractAttachments (payload : MessagePart) : list AttachmentInfo :=
  match payload with
  | mkPart mt fn b ps =>
      let attachments :=
        if truthyOpt fn && truthyOpt (bodyAttachmentId b) then
          [ {| a_filename := orEmpty fn;
               a_mimeType := orElse (orEmpty mt) (lit "application/octet-stream");
               a_size := sizeOrZero b;
               a_attachmentId := orEmpty (bodyAttachmentId b) |} ]
        else [] in
      match ps with
      | Some l =>
          fold_left (fun acc part => acc ++ extractAttachments part) l attachments
      | None => attachments
      end
  end.

(** ** stripHtml *)

Fixpoint takeWhile (f : Z -> bool) (s : jsstring) : jsstring :=
  match s with
  | c :: t => if f c then c :: takeWhile f t else []
  | [] => []
  end.

(** An ASCII letter compared under the flag [i]: without the flag [u] no
    character outside ASCII is equal to an ASCII letter. *)
Definition asciiLower (c : Z) : Z :=
  if (65 <=? c) && (c <=? 90) then c + 32 else c.

(** [s] starts with the lower-case ASCII pattern [p], case ignored. *)
Fixpoint startsWithCI (s p : jsstring) {struct p} : bool :=
  match p, s with
  | [], _ => true
  | c :: p', d :: s' => (c =? asciiLower d) && startsWithCI s' p'
  | _ :: _, [] => false
  end.

(** A literal pattern under the flags [gi]. *)
Definition literalCI (p r : jsstring) : matcher :=
  fun s => if startsWithCI s p then Some (r, List.length p) else None.

(** [/<br\s*\/?>/gi], replaced by a line feed. *)
Definition brTag : matcher :=
  fun s =>
    if startsWithCI s (lit "<br") then
      let ws := takeWhile isWhiteSpace (skipn 3 s) in
      match skipn (3 + List.length ws) s with
      | 47 :: 62 :: _ => Some (LF, (3 + List.length ws + 2)%nat)
      | 62 :: _ => Some (LF, (3 + List.length ws + 1)%nat)
      | _ => None
      end
    else None.

(** [/<[^>]+>/g], replaced by nothing. *)
Definition anyTag : matcher :=
  fun s =>
    match s with
    | 60 :: t =>
        let inner := takeWhile (fun c => negb (c =? 62)) t in
        match inner, skipn (List.length inner) t with
        | _ :: _, 62 :: _ => Some ([], (List.length inner + 2)%nat)
        | _, _ => None
        end
    | _ => None
    end.

Definition isDecDigit (c : Z) : bool := (48 <=? c) && (c <=? 57).

Definition isHexDigit (c : Z) : bool :=
  isDecDigit c || ((97 <=? c) && (c <=? 102)) || ((65 <=? c) && (c <=? 70)).

Definition digitValue (c : Z) : Z :=
  if isDecDigit c then c - 48
  else if (97 <=? c) && (c <=? 102) then c - 87
  else c - 55.

(** The Number nearest to a non-negative integer: integers below 2^53 are
    exact, larger ones keep 53 significant bits, ties to even. *)
Definition toNumber (n : Z) : Z :=
  if n <? 2 ^ 53 then n
  else
    let e := Z.log2 n - 52 in
    let q := n / 2 ^ e in
    let r := n mod 2 ^ e in
    let half := 2 ^ (e - 1) in
    let q' := if r <? half then q
              else if half <? r then q + 1
              else if Z.even q then q else q + 1 in
    q' * 2 ^ e.

(** [parseInt(digits, radix)] for a non-empty string of digits of the
    radix.  (A value beyond the range of Numbers is Infinity, which
    [fromCharCode] maps to 0, as it maps every multiple of 2^16.) *)
Definition parseInt (digits : jsstring) (radix : Z) : Z :=
  toNumber (fold_left (fun acc c => acc * radix + digitValue c) digits 0).

(** [/&#x([0-9a-fA-F]+);/g], replaced by
    [String.fromCharCode(parseInt(hex, 16))]. *)
Definition hexReference : matcher :=
  fun s =>
    match s with
    | 38 :: 35 :: 120 :: t =>
        let hex := takeWhile isHexDigit t in
        match hex, skipn (List.length hex) t with
        | _ :: _, 59 :: _ =>
            Some (fromCharCode (parseInt hex 16), (3 + List.length hex + 1)%nat)
        | _, _ => None
        end
    | _ => None
    end.

(** [/&#(\d+);/g], replaced by [String.fromCharCode(parseInt(dec, 10))]. *)
Definition decReference : matcher :=
  fun s =>
    match s with
    | 38 :: 35 :: t =>
        let dec := takeWhile isDecDigit t in
        match dec, skipn (List.length dec) t with
        | _ :: _, 59 :: _ =>
            Some (fromCharCode (parseInt dec 10), (2 + List.length dec + 1)%nat)
        | _, _ => None
        end
    | _ => None
    end.

(** [/\n{3,}/g], replaced by two line feeds. *)
Definition lineFeeds : matcher :=
  fun s =>
    match s with
    | 10 :: 10 :: 10 :: t =>
        Some (LF ++ LF, (3 + List.length (takeWhile (Z.eqb 10) t))%nat)
    | _ => None
    end.

Definition stripHtml (html : jsstring) : jsstring :=
  let s := replaceAll brTag html in
  let s := replaceAll (literalCI (lit "</p>") (LF ++ LF)) s in
  let s := replaceAll (literalCI (lit "</div>") LF) s in
  let s := replaceAll anyTag s in
  let s := replaceAll (literal (lit "&nbsp;") (lit " ")) s in
  let s := replaceAll (literal (lit "&amp;") (lit "&")) s in
  let s := replaceAll (literal (lit "&lt;") (lit "<")) s in
  let s := replaceAll (literal (lit "&gt;") (lit ">")) s in
  let s := replaceAll (literal (lit "&quot;") [34]) s in
  let s := replaceAll (literal (lit "&apos;") (lit "'")) s in
  let s := replaceAll (literal (lit "&#39;") (lit "'")) s in
  let s := replaceAll hexReference s in
  let s := replaceAll decReference s in
  let s := replaceAll lineFeeds s in
  trim s.

(** ** buildMimeMessage *)

(** What a call reads from its environment: the clock, [Date.now()], and
    the text [Math.random().toString(36).slice(2)]. *)
Record Env := mkEnv {
  now : Z;
  random36 : jsstring
}.

(** [lines.push(l)]. *)
Definition push (lines : list jsstring) (l : jsstring) : list jsstring :=
  lines ++ [l].

(** [if (o) lines.push(`${label}${o}`)]. *)
Definition pushIf (lines : list jsstring) (label : jsstring)
    (o : option jsstring) : list jsstring :=
  if truthyOpt o then push lines (label ++ orEmpty o) else lines.

(** [Buffer.from(s).toString('base64')]. *)
Definition base64OfString (s : jsstring) : jsstring :=
  toBase64 (utf8Encode s).

(** The array [lines] when it is joined. *)
Definition mimeLines (env : Env) (options : MimeOptions) : list jsstring :=
  let lines := [] in
  let lines := push lines (lit "To: " ++ to options) in
  let lines := pushIf lines (lit "Cc: ") (cc options) in
  let lines := pushIf lines (lit "Bcc: ") (bcc options) in
  let lines := push lines (lit "Subject: " ++ subject options) in
  let lines := pushIf lines (lit "In-Reply-To: ") (inReplyTo options) in
  let lines := pushIf lines (lit "References: ") (references options) in
  let lines := push lines (lit "MIME-Version: 1.0") in
  if truthyOpt (htmlBody options) && truthyOpt (textBody options) then
    let boundary :=
      lit "----boundary_" ++ numberToString (now env) ++ lit "_"
        ++ random36 env in
    let lines :=
      push lines (lit "Content-Type: multipart/alternative; boundary="
                    ++ [34] ++ boundary ++ [34]) in
    let lines := push lines [] in
    let lines := push lines (lit "--" ++ boundary) in
    let lines := push lines (lit "Content-Type: text/plain; charset=UTF-8") in
    let lines := push lines (lit "Content-Transfer-Encoding: base64") in
    let lines := push lines [] in
    let lines := push lines (base64OfString (orEmpty (textBody options))) in
    let lines := push lines (lit "--" ++ boundary) in
    let lines := push lines (lit "Content-Type: text/html; charset=UTF-8") in
    let lines := push lines (lit "Content-Transfer-Encoding: base64") in
    let lines := push lines [] in
    let lines := push lines (base64OfString (orEmpty (htmlBody options))) in
    push lines (lit "--" ++ boundary ++ lit "--")
  else if truthyOpt (htmlBody options) then
    let lines := push lines (lit "Content-Type: text/html; charset=UTF-8") in
    let lines := push lines (lit "Content-Transfer-Encoding: base64") in
    let lines := push lines [] in
    push lines (base64OfString (orEmpty (htmlBody options)))
  else
    let lines := push lines (lit "Content-Type: text/plain; charset=UTF-8") in
    let lines := push lines (lit "Content-Transfer-Encoding: base64") in
    let lines := push lines [] in
    push lines (base64OfString (orEmpty (textBody options))).

(** [/=+$/]: the first position from which only ['='] follow, to the end. *)
Fixpoint stripTrailingEq (s : jsstring) : jsstring :=
  match s with
  | [] => []
  | c :: t => if forallb (Z.eqb 61) (c :: t) then [] else c :: stripTrailingEq t
  end.

(** The transport-safe form of a base64 text. *)
Definition urlSafe (b64 : jsstring) : jsstring :=
  stripTrailingEq
    (replaceAll (literal (lit "/") (lit "_"))
       (replaceAll (literal (lit "+") (lit "-")) b64)).

Definition buildMimeMessage (env : Env) (options : MimeOptions) : jsstring :=
  let raw := join CRLF (mimeLines env options) in
  urlSafe (base64OfString raw).

End Utils.
Import Utils.

(* ================================================================== *)
(** * gmail-client.ts *)
(* ================================================================== *)

Module GmailClient.

(** The answer of [users.messages.get] as far as [replyToEmail] reads it:
    [data.payload?.headers] and [data.threadId]. *)
Record Message := mkMessage {
  headers : option (list MessagePartHeader);
  threadId : option jsstring
}.

(** The request body handed to [users.messages.send]. *)
Record SendRequest := mkSend {
  raw : jsstring;
  sendThreadId : option jsstring
}.

Section Reply.

Variable toLowerCase : jsstring -> jsstring.

(** [[a, b].filter(Boolean).join(', ')]. *)
Definition joinPresent (l : list jsstring) : jsstring :=
  join (lit ", ") (filter truthy l).

(** The argument [replyToEmail] passes to [buildMimeMessage]. *)
Definition replyOptions (original : Message) (body : jsstring)
    (isHtml replyAll : bool) : MimeOptions :=
  let hdrs := headers original in
  let originalFrom := orEmpty (getHeader toLowerCase hdrs (lit "From")) in
  let originalTo := orEmpty (getHeader toLowerCase hdrs (lit "To")) in
  let originalCc := orEmpty (getHeader toLowerCase hdrs (lit "Cc")) in
  let originalSubject :=
    orEmpty (getHeader toLowerCase hdrs (lit "Subject")) in
  let originalMessageId :=
    orEmpty (getHeader toLowerCase hdrs (lit "Message-ID")) in
  let originalReferences :=
    orEmpty (getHeader toLowerCase hdrs (lit "References")) in
  let subject :=
    if startsWith originalSubject (lit "Re:") then originalSubject
    else lit "Re: " ++ originalSubject in
  let to := originalFrom in
  let cc :=
    if replyAll then Some (joinPresent [originalTo; originalCc])
    else None in
  let references :=
    if truthy originalReferences
    then originalReferences ++ lit " " ++ originalMessageId
    else originalMessageId in
  {| to := to;
     subject := subject;
     cc := cc;
     bcc := None;
     textBody := if isHtml then None else Some body;
     htmlBody := if isHtml then Some body else None;
     inReplyTo := Some originalMessageId;
     references := Some references;
     threadSubject := None |}.

(** [replyToEmail], from the fetched original to the request sent. *)
Definition replyToEmail (env : Env) (original : Message) (body : jsstring)
    (isHtml replyAll : bool) : SendRequest :=
  {| raw := buildMimeMessage env (replyOptions original body isHtml replyAll);
     sendThreadId := if truthyOpt (threadId original)
                     then threadId original else None |}.

End Reply.

End GmailClient.
Import GmailClient.

(* ================================================================== *)
(** * The specification's vocabulary *)
(* ================================================================== *)

Module Spec.










(** A header line that is emitted only for a non-empty value. *)
Definition optionalHeader (label : jsstring) (o : option jsstring)
    : list jsstring :=
  match o with
  | Some (c :: v) => [label ++ c :: v]
  | _ => []
  end.



(** A text without its trailing ['='] characters. *)
Fixpoint dropLeadingEq (s : jsstring) : jsstring :=
  match s with
  | c :: t => if c =? 61 then dropLeadingEq t else s
  | [] => []
  end.

Definition withoutTrailingEq (s : jsstring) : jsstring :=
  rev (dropLeadingEq (rev s)).

(** ['+'] to ['-'] and ['/'] to ['_']. *)
Definition urlSafeChar (c : Z) : Z :=
  if c =? 43 then 45 else if c =? 47 then 95 else c.

(** Both bodies are present and non-empty: the multipart/alternative
    case. *)
Definition bothBodies (o : MimeOptions) : bool :=
  truthyOpt (textBody o) && truthyOpt (htmlBody o).


End Spec.
Import Spec.

(* ================================================================== *)
(** * Concrete values used by the examples *)
(* ================================================================== *)

(** The case mapping restricted to ASCII, for concrete runs. *)
Definition asciiToLowerCase (s : jsstring) : jsstring := map asciiLower s.

Definition plainOptions (t s b : jsstring) : MimeOptions :=
  {| to := t; subject := s; textBody := Some b; htmlBody := None;
     cc := None; bcc := None; inReplyTo := None; references := None;
     threadSubject := None |}.

Definition someEnv : Env := {| now := 1700000000000; random36 := lit "k3j9x2" |}.
Definition otherEnv : Env := {| now := 1700000000001; random36 := lit "p0q8r7" |}.

Definition leaf (mt : string) (d : string) : MessagePart :=
  {| mimeType := Some (lit mt); filename := None;
     body := Some {| attachmentId := None; data := Some (lit d); size := None |};
     parts := None |}.

Definition container (mt : string) (l : list MessagePart) : MessagePart :=
  {| mimeType := Some (lit mt); filename := None; body := None;
     parts := Some l |}.



(** A fetched original with the given headers. *)
Definition header (n v : string) : MessagePartHeader :=
  {| name := Some (lit n); value := Some (lit v) |}.

Definition originalWith (hs : list MessagePartHeader) : Message :=
  {| headers := Some hs; threadId := Some (lit "t1") |}.

(** An accented letter, the euro sign and an emoji: two, three and four
    bytes of UTF-8, the last one a surrogate pair. *)
Definition multiByteText : jsstring := [233; 8364; 55357; 56832].

Definition htmlAndText : MimeOptions :=
  {| to := lit "b@x.com"; subject := lit "Hi"; textBody := Some (lit "Hello");
     htmlBody := Some (lit "<b>Hello</b>"); cc := None; bcc := None;
     inReplyTo := None; references := None; threadSubject := None |}.

(* ================================================================== *)
(** * gmail-client.ts: reading, sending, forwarding, labels *)
(* ================================================================== *)

Module Facade.

(** The answer of [users.messages.get] with [format: 'full'] as far as
    [getEmail] reads it.  The payload, when present, is the root part: its
    headers and the tree [extractBody] and [extractAttachments] walk. *)
Record FullMessage := mkFull {
  f_id : option jsstring;
  f_threadId : option jsstring;
  f_labelIds : option (list jsstring);
  f_payload : option (option (list MessagePartHeader) * MessagePart)
}.

Record EmailDetail := mkDetail {
  e_id : jsstring;
  e_threadId : jsstring;
  e_labelIds : list jsstring;
  e_from : jsstring;
  e_to : jsstring;
  e_cc : jsstring;
  e_subject : jsstring;
  e_date : jsstring;
  e_body : jsstring;
  e_htmlBody : jsstring;
  e_attachments : list AttachmentInfo
}.

Section GetEmail.

Variable toLowerCase : jsstring -> jsstring.

(** [getEmail], from the fetched message to the detail returned.  Without
    a payload, [extractBody(res.data.payload!)] reads a property of
    [undefined] and throws: the result is [None]. *)
Definition getEmail (res : FullMessage) : option EmailDetail :=
  match f_payload res with
  | None => None
  | Some (hdrs, payload) =>
      let extracted := extractBody payload in
      let attachments := extractAttachments payload in
      let body :=
        orElse (text extracted)
               (if truthy (html extracted) then stripHtml (html extracted)
                else []) in
      Some {| e_id := orEmpty (f_id res);
              e_threadId := orEmpty (f_threadId res);
              e_labelIds := match f_labelIds res with
                            | Some l => l
                            | None => []
                            end;
              e_from := orEmpty (getHeader toLowerCase hdrs (lit "From"));
              e_to := orEmpty (getHeader toLowerCase hdrs (lit "To"));
              e_cc := orEmpty (getHeader toLowerCase hdrs (lit "Cc"));
              e_subject := orEmpty (getHeader toLowerCase hdrs (lit "Subject"));
              e_date := orEmpty (getHeader toLowerCase hdrs (lit "Date"));
              e_body := body;
              e_htmlBody := html extracted;
              e_attachments := attachments |}
  end.

End GetEmail.

(** The argument [sendEmail] passes to [buildMimeMessage]. *)
Definition sendOptions (to subject body : jsstring) (cc bcc : option jsstring)
    (isHtml : bool) : MimeOptions :=
  {| to := to;
     subject := subject;
     cc := cc;
     bcc := bcc;
     textBody := if isHtml then None else Some body;
     htmlBody := if isHtml then Some body else None;
     inReplyTo := None;
     references := None;
     threadSubject := None |}.

(** [sendEmail]: the request body handed to [users.messages.send]. *)
Definition sendEmail (env : Env) (to subject body : jsstring)
    (cc bcc : option jsstring) (isHtml : bool) : SendRequest :=
  {| raw := buildMimeMessage env (sendOptions to subject body cc bcc isHtml);
     sendThreadId := None |}.

(** [createDraft]: the [raw] of the message handed to
    [users.drafts.create]. *)
Definition createDraft (env : Env) (to subject body : jsstring)
    (cc bcc : option jsstring) (isHtml : bool) : jsstring :=
  buildMimeMessage env
    {| to := to;
       subject := subject;
       cc := cc;
       bcc := bcc;
       textBody := if isHtml then None else Some body;
       htmlBody := if isHtml then Some body else None;
       inReplyTo := None;
       references := None;
       threadSubject := None |}.

(** The body [forwardEmail] synthesizes, joined with line feeds. *)
Definition forwardedBody (email : EmailDetail) : jsstring :=
  join LF
    [ [];
      lit "---------- Forwarded message ---------";
      lit "From: " ++ e_from email;
      lit "Date: " ++ e_date email;
      lit "Subject: " ++ e_subject email;
      lit "To: " ++ e_to email;
      [];
      e_body email ].

(** The argument [forwardEmail] passes to [buildMimeMessage]. *)
Definition forwardOptions (email : EmailDetail) (to : jsstring) : MimeOptions :=
  let subject :=
    if startsWith (e_subject email) (lit "Fwd:") then e_subject email
    else lit "Fwd: " ++ e_subject email in
  {| to := to;
     subject := subject;
     textBody := Some (forwardedBody email);
     htmlBody := None;
     cc := None;
     bcc := None;
     inReplyTo := None;
     references := None;
     threadSubject := None |}.

Section ForwardEmail.

Variable toLowerCase : jsstring -> jsstring.

(** [forwardEmail], from the fetched message to the request sent; it fails
    when [getEmail] does. *)
Definition forwardEmail (env : Env) (res : FullMessage) (to : jsstring)
    : option SendRequest :=
  match getEmail toLowerCase res with
  | None => None
  | Some email =>
      Some {| raw := buildMimeMessage env (forwardOptions email to);
              sendThreadId := None |}
  end.

End ForwardEmail.

(** [gmail_v1.Schema$LabelColor] and the part of [gmail_v1.Schema$Label]
    that [createLabel] sends. *)
Record LabelColor := mkColor {
  backgroundColor : option jsstring;
  textColor : option jsstring
}.

Record LabelRequest := mkLabelRequest {
  l_name : jsstring;
  labelListVisibility : jsstring;
  messageListVisibility : jsstring;
  color : option LabelColor
}.

(** The request body of [createLabel]. *)
Definition createLabelRequest (name : jsstring)
    (background text : option jsstring) : LabelRequest :=
  let requestBody :=
    {| l_name := name;
       labelListVisibility := lit "labelShow";
       messageListVisibility := lit "show";
       color := None |} in
  if truthyOpt background || truthyOpt text then
    {| l_name := l_name requestBody;
       labelListVisibility := labelListVisibility requestBody;
       messageListVisibility := messageListVisibility requestBody;
       color := Some {| backgroundColor :=
                          Some (orElse (orEmpty background) (lit "#000000"));
                        textColor :=
                          Some (orElse (orEmpty text) (lit "#ffffff")) |} |}
  else requestBody.

End Facade.
Import Facade.

(* ================================================================== *)
(** * Vocabulary of the further properties *)
(* ================================================================== *)

Module Properties.

(** The characters of the transport-safe alphabet: letters, digits, ['-']
    and ['_']. *)
Definition isTransportChar (c : Z) : bool :=
  ((65 <=? c) && (c <=? 90)) || ((97 <=? c) && (c <=? 122))
  || ((48 <=? c) && (c <=? 57)) || (c =? 45) || (c =? 95).

(** The number of line feeds a text starts with. *)
Definition leadingLF (s : jsstring) : nat :=
  List.length (takeWhile (Z.eqb 10) s).

(** Three line feeds in a row occur somewhere in the text. *)
Fixpoint hasTripleLF (s : jsstring) : bool :=
  match s with
  | [] => false
  | c :: t => startsWith (c :: t) [10; 10; 10] || hasTripleLF t
  end.

(** Every code unit is below the surrogates. *)
Definition belowSurrogates (s : jsstring) : Prop :=
  Forall (fun c => 0 <= c < 55296) s.

(** A record [extractAttachments] may return: neither its file name, nor
    its type, nor its identifier is empty. *)
Definition completeAttachment (a : AttachmentInfo) : bool :=
  truthy (a_filename a) && truthy (a_mimeType a) && truthy (a_attachmentId a).

(** The header fields of a message and the random text are well formed. *)
Definition wellFormedFields (env : Env) (o : MimeOptions) : bool :=
  isWellFormed (to o) && isWellFormed (subject o)
  && isWellFormed (orEmpty (cc o)) && isWellFormed (orEmpty (bcc o))
  && isWellFormed (orEmpty (inReplyTo o))
  && isWellFormed (orEmpty (references o))
  && isWellFormed (random36 env).

(** The test [getHeader] applies to a header, for the name asked. *)
Definition nameMatches (toLowerCase : jsstring -> jsstring) (n : jsstring)
    (h : MessagePartHeader) : bool :=
  match name h with
  | Some hn => streq (toLowerCase hn) (toLowerCase n)
  | None => false
  end.

(** Two headers with the same value and, up to case, the same name. *)
Definition sameUpToCase (toLowerCase : jsstring -> jsstring)
    (h1 h2 : MessagePartHeader) : Prop :=
  value h1 = value h2
  /\ option_map toLowerCase (name h1) = option_map toLowerCase (name h2).

(** The references [&#ds;] and [&#xhs;] standing alone. *)
Definition decimalReference (ds : jsstring) : jsstring :=
  lit "&#" ++ ds ++ lit ";".



End Properties.
Import Properties.

(** A full message whose root is an HTML leaf. *)
Definition htmlOnlyMessage : FullMessage :=
  {| f_id := Some (lit "m1"); f_threadId := Some (lit "t1");
     f_labelIds := None;
     f_payload := Some (Some [header "From" "s@x.com"; header "Subject" "Hi"],
                        leaf "text/html" "PHA-SGk8L3A-") |}.

(* ================================================================== *)
(** * Proof automation *)
(* ================================================================== *)

(** Linear arithmetic with the divisions and remainders by constants. *)
Ltac div_lia := Z.to_euclidean_division_equations; lia.

(** Tests on bytes whose outcome follows from the range of the code
    point. *)
Ltac settle_with a b cmp pos neg :=
  first [ replace (cmp a b) with true by (symmetry; apply pos; div_lia)
        | replace (cmp a b) with false by (symmetry; apply neg; div_lia) ].

Ltac settle_test :=
  match goal with
  | |- context [Z.leb ?a ?b] => settle_with a b Z.leb Z.leb_le Z.leb_gt
  | |- context [Z.ltb ?a ?b] => settle_with a b Z.ltb Z.ltb_lt Z.ltb_ge
  | |- context [Z.eqb ?a ?b] => settle_with a b Z.eqb Z.eqb_eq Z.eqb_neq
  end.

(** A test that the range of the code point leaves open. *)
Ltac split_test :=
  match goal with
  | |- context [Z.eqb ?a ?b] => destruct (Z.eqb_spec a b)
  end.

(** The decoder run over the bytes of one code point. *)
Ltac run_decoder :=
  repeat (cbn [app utf8DecodeFrom decodeByte andb];
          unfold startByte;
          repeat settle_test;
          try split_test;
          cbn [andb]).

(* ================================================================== *)
(** * Payload tree decoder *)
(* ================================================================== *)

Section MessagePartInduction.

Variable P : MessagePart -> Prop.
Hypothesis leaf_case : forall mt fn b, P (mkPart mt fn b None).
Hypothesis node_case :
  forall mt fn b l, Forall P l -> P (mkPart mt fn b (Some l)).

(** Induction on payload trees, with the hypothesis for every child. *)
Fixpoint MessagePart_tree_ind (p : MessagePart) : P p :=
  match p with
  | mkPart mt fn b None => leaf_case mt fn b
  | mkPart mt fn b (Some l) =>
      node_case mt fn b l
        ((fix children (l : list MessagePart) : Forall P l :=
            match l with
            | [] => Forall_nil P
            | c :: r => Forall_cons c (MessagePart_tree_ind c) (children r)
            end) l)
  end.

End MessagePartInduction.













(** A text/plain leaf that decodes to nothing, an HTML leaf inside a nested
    container and two text/plain leaves: the first non-empty one of each
    type is kept. *)
Example extractBody_nested :
  extractBody
    (container "multipart/mixed"
       [ leaf "text/plain" "=";
         container "multipart/alternative"
           [ leaf "text/html" "PGI-"; leaf "text/plain" "SGVsbG8" ];
         leaf "text/plain" "V29ybGQ=";
         leaf "text/html" "PGk+" ])
  = {| text := lit "Hello"; html := lit "<b>" |}.
Proof. reflexivity. Qed.

(** ** Attachments *)

Lemma fold_left_append {A B} (f : A -> list B) (l : list A) (acc : list B) :
  fold_left (fun a x => a ++ f x) l acc = acc ++ flat_map f l.
Proof.
  revert acc; induction l as [|x l IH]; intros acc; simpl.
  - rewrite app_nil_r; reflexivity.
  - rewrite IH, app_assoc; reflexivity.
Qed.







(* ================================================================== *)
(** * MIME message builder *)
(* ================================================================== *)

Lemma replaceAll_char (a b : Z) (s : jsstring) :
  replaceAll (literal [a] [b]) s = map (fun c => if a =? c then b else c) s.
Proof.
  unfold replaceAll. induction s as [|c s IH]; simpl; [reflexivity|].
  unfold literal at 1; simpl. rewrite andb_true_r.
  destruct (a =? c); simpl; rewrite IH; reflexivity.
Qed.

Lemma forallb_eq_last (s : jsstring) (c : Z) :
  forallb (Z.eqb 61) (s ++ [c]) = forallb (Z.eqb 61) s && (61 =? c).
Proof. rewrite forallb_app; simpl; rewrite andb_true_r; reflexivity. Qed.

Lemma stripTrailingEq_snoc (s : jsstring) (c : Z) :
  stripTrailingEq (s ++ [c]) = if c =? 61 then stripTrailingEq s else s ++ [c].
Proof.
  induction s as [|x s IH].
  - simpl. rewrite andb_true_r, Z.eqb_sym. destruct (c =? 61); reflexivity.
  - cbn [app stripTrailingEq].
    change (x :: s ++ [c]) with ((x :: s) ++ [c]) at 1.
    rewrite forallb_eq_last, IH, (Z.eqb_sym 61 c).
    destruct (c =? 61); [rewrite andb_true_r; reflexivity|].
    rewrite andb_false_r; reflexivity.
Qed.

(** The regular expression [/=+$/] removes exactly the trailing ['=']. *)
Lemma stripTrailingEq_spec (s : jsstring) :
  stripTrailingEq s = withoutTrailingEq s.
Proof.
  unfold withoutTrailingEq.
  induction s as [|c s IH] using rev_ind; [reflexivity|].
  rewrite stripTrailingEq_snoc, rev_app_distr; simpl.
  destruct (c =? 61); [exact IH|].
  simpl. rewrite rev_involutive; reflexivity.
Qed.

Lemma dropLeadingEq_head (s : jsstring) : hd 0 (dropLeadingEq s) <> 61.
Proof.
  induction s as [|c s IH]; simpl; [discriminate|].
  destruct (Z.eqb_spec c 61); [exact IH | exact n].
Qed.

Lemma last_rev_hd (s : jsstring) (d : Z) : last (rev s) d = hd d s.
Proof.
  destruct s as [|c s]; [reflexivity|].
  simpl. apply last_last.
Qed.

Lemma dropLeadingEq_incl (s : jsstring) (c : Z) :
  In c (dropLeadingEq s) -> In c s.
Proof.
  induction s as [|x s IH]; simpl; [tauto|].
  destruct (x =? 61); simpl; tauto.
Qed.

Lemma urlSafe_spec (b64 : jsstring) :
  urlSafe b64 = withoutTrailingEq (map urlSafeChar b64).
Proof.
  unfold urlSafe.
  change (lit "/") with [47]; change (lit "_") with [95];
    change (lit "+") with [43]; change (lit "-") with [45].
  rewrite !replaceAll_char, stripTrailingEq_spec, map_map.
  f_equal. apply map_ext. intros c. unfold urlSafeChar.
  rewrite (Z.eqb_sym 43 c).
  destruct (Z.eqb_spec c 43) as [->|]; [reflexivity|].
  rewrite (Z.eqb_sym 47 c); reflexivity.
Qed.

Lemma urlSafeChar_safe (c : Z) : urlSafeChar c <> 43 /\ urlSafeChar c <> 47.
Proof.
  unfold urlSafeChar.
  destruct (Z.eqb_spec c 43); [lia|].
  destruct (Z.eqb_spec c 47); lia.
Qed.

(** C5. The string [buildMimeMessage] returns contains no ['+'], no ['/']
    and no trailing ['=']: it is the standard base64 of the CRLF-joined
    message with ['+'] replaced by ['-'], ['/'] by ['_'], and the trailing
    ['='] removed. *)
Theorem buildMimeMessage_transport_safe (env : Env) (o : MimeOptions) :
  ~ In 43 (buildMimeMessage env o)
  /\ ~ In 47 (buildMimeMessage env o)
  /\ last (buildMimeMessage env o) 0 <> 61
  /\ buildMimeMessage env o
     = withoutTrailingEq
         (map urlSafeChar
            (toBase64 (utf8Encode (join CRLF (mimeLines env o))))).
Proof.
  unfold buildMimeMessage, base64OfString. cbv zeta.
  rewrite urlSafe_spec.
  set (b := toBase64 _).
  assert (H : forall c, In c (withoutTrailingEq (map urlSafeChar b)) ->
                        c <> 43 /\ c <> 47).
  { intros c Hc. unfold withoutTrailingEq in Hc.
    apply in_rev, dropLeadingEq_incl, in_rev, in_map_iff in Hc.
    destruct Hc as [x [<- _]]. apply urlSafeChar_safe. }
  repeat split.
  - intros Hc. apply H in Hc. lia.
  - intros Hc. apply H in Hc. lia.
  - unfold withoutTrailingEq. rewrite last_rev_hd. apply dropLeadingEq_head.
Qed.

Lemma pushIf_optionalHeader lines label o :
  pushIf lines label o = lines ++ optionalHeader label o.
Proof.
  unfold pushIf, push, optionalHeader.
  destruct o as [[|c v]|]; simpl; rewrite ?app_nil_r; reflexivity.
Qed.



(** C9. When [textBody] and [htmlBody] are not both present and non-empty,
    [buildMimeMessage] does not read its environment: two calls with equal
    arguments return identical strings. *)
Theorem buildMimeMessage_single_part_deterministic
    (env1 env2 : Env) (o : MimeOptions) :
  bothBodies o = false -> buildMimeMessage env1 o = buildMimeMessage env2 o.
Proof.
  unfold bothBodies, buildMimeMessage, mimeLines. cbv zeta.
  rewrite (andb_comm (truthyOpt (htmlBody o))).
  intros ->. reflexivity.
Qed.

Lemma buildMimeMessage_single_part_deterministic_witness :
  bothBodies (plainOptions (lit "b@x.com") (lit "Hi") (lit "Hello")) = false
  /\ buildMimeMessage someEnv
       (plainOptions (lit "b@x.com") (lit "Hi") (lit "Hello"))
     = buildMimeMessage otherEnv
         (plainOptions (lit "b@x.com") (lit "Hi") (lit "Hello")).
Proof.
  split; [reflexivity|].
  apply (buildMimeMessage_single_part_deterministic someEnv otherEnv).
  reflexivity.
Defined.

(** The multipart/alternative case does read the clock and the random
    text: there two calls with equal arguments may differ. *)
Lemma buildMimeMessage_multipart_reads_environment :
  bothBodies htmlAndText = true
  /\ buildMimeMessage someEnv htmlAndText <> buildMimeMessage otherEnv htmlAndText.
Proof. split; [reflexivity | vm_compute; discriminate]. Qed.

(* ================================================================== *)
(** * Replies *)
(* ================================================================== *)

(** The look-up ignores case and returns the first match. *)
Example getHeader_first_match :
  getHeader asciiToLowerCase
    (Some [header "from" "s@x.com"; header "MESSAGE-id" "<1@x>";
           header "Message-ID" "<2@x>"])
    (lit "Message-Id")
  = Some (lit "<1@x>").
Proof. reflexivity. Qed.

(** C7. With [replyAll], the Cc passed to the builder joins the original
    To and the original Cc with a comma and a space, after dropping those
    that are empty, without deduplication by address; with To [a@x.com]
    and an empty Cc it is exactly [a@x.com]. *)
Theorem replyAll_cc_composition
    (toLowerCase : jsstring -> jsstring) (original : Message)
    (body : jsstring) (isHtml : bool) :
  let originalTo := orEmpty (getHeader toLowerCase (headers original) (lit "To")) in
  let originalCc := orEmpty (getHeader toLowerCase (headers original) (lit "Cc")) in
  cc (replyOptions toLowerCase original body isHtml true)
  = Some (match originalTo, originalCc with
          | [], [] => []
          | _ :: _, [] => originalTo
          | [], _ :: _ => originalCc
          | _ :: _, _ :: _ => originalTo ++ lit ", " ++ originalCc
          end)
  /\ cc (replyOptions asciiToLowerCase
           (originalWith [header "From" "s@x.com"; header "To" "a@x.com";
                          header "Cc" ""])
           body isHtml true)
     = Some (lit "a@x.com")
  /\ cc (replyOptions asciiToLowerCase
           (originalWith [header "From" "s@x.com"; header "To" "a@x.com";
                          header "Cc" "a@x.com"])
           body isHtml true)
     = Some (lit "a@x.com, a@x.com").
Proof.
  cbv zeta. split; [| split; reflexivity].
  unfold replyOptions, joinPresent; cbn [cc].
  destruct (orEmpty (getHeader toLowerCase (headers original) (lit "To")));
    destruct (orEmpty (getHeader toLowerCase (headers original) (lit "Cc")));
    reflexivity.
Qed.


(** Every character of a base64 text is of the alphabet, or ['=']. *)
Lemma toBase64_chars (bs : list Z) (c : Z) :
  In c (toBase64 bs) -> c = 61 \/ In c alphabet.
Proof.
  unfold toBase64. intros H. apply in_app_or in H as [H|H].
  - right. apply in_map_iff in H as [v [<- _]]. unfold base64Char.
    destruct (Nat.lt_ge_cases (Z.to_nat v) (List.length alphabet)) as [Hlt|Hge].
    + apply nth_In; exact Hlt.
    + rewrite (nth_overflow _ _ Hge). vm_compute. tauto.
  - left. unfold padding in H.
    destruct (Nat.modulo (List.length bs) 3) as [|[|[|k]]]; simpl in H;
      intuition congruence.
Qed.






(* ================================================================== *)
(** * Round trips: base64 and UTF-8 *)
(* ================================================================== *)

Lemma isByte_range (b : Z) : isByte b = true <-> 0 <= b < 256.
Proof. unfold isByte. rewrite andb_true_iff, Z.leb_le, Z.ltb_lt. tauto. Qed.

Lemma list_ind3 {A} (P : list A -> Prop) :
  P [] -> (forall a, P [a]) -> (forall a b, P [a; b]) ->
  (forall a b c r, P r -> P (a :: b :: c :: r)) ->
  forall l, P l.
Proof.
  intros H0 H1 H2 H3.
  assert (H : forall l, P l /\ (forall a, P (a :: l)) /\ (forall a b, P (a :: b :: l))).
  { induction l as [|x l [IH0 [IH1 IH2]]]; repeat split; auto. }
  intros l. apply H.
Qed.

(** The alphabet is read back to the value it was taken at. *)
Lemma base64Value_Char (v : Z) :
  0 <= v < 64 -> base64Char v <> 61 /\ base64Value (base64Char v) = Some v.
Proof.
  intros Hv. unfold base64Char.
  assert (Hn : (Z.to_nat v < 64)%nat) by lia.
  assert (E : v = Z.of_nat (Z.to_nat v)) by lia.
  revert Hn E. generalize (Z.to_nat v). intros n Hn ->.
  do 64 (destruct n as [|n]; [vm_compute; split; [discriminate | reflexivity] |]).
  lia.
Qed.

Lemma sextetsOfString_chars (l : list Z) (pad : jsstring) :
  Forall isSextet l -> sextetsOfString pad = [] ->
  sextetsOfString (map base64Char l ++ pad) = l.
Proof.
  intros Hl Hpad. induction Hl as [|v l Hv _ IH]; simpl; [exact Hpad|].
  destruct (base64Value_Char v Hv) as [Hne Hval].
  destruct (Z.eqb_spec (base64Char v) 61); [contradiction|].
  rewrite Hval, IH; reflexivity.
Qed.

Lemma sextetsOfBytes_range (bs : list Z) :
  Forall (fun b => isByte b = true) bs -> Forall isSextet (sextetsOfBytes bs).
Proof.
  induction bs as [|a|a b|a b c r IH] using list_ind3; intros H; simpl.
  - constructor.
  - inversion_clear H as [|? ? Ha _]. apply isByte_range in Ha.
    repeat constructor; unfold isSextet; div_lia.
  - inversion_clear H as [|? ? Ha H']. inversion_clear H' as [|? ? Hb _].
    apply isByte_range in Ha, Hb.
    repeat constructor; unfold isSextet; div_lia.
  - inversion_clear H as [|? ? Ha H']. inversion_clear H' as [|? ? Hb H''].
    inversion_clear H'' as [|? ? Hc Hr].
    apply isByte_range in Ha, Hb, Hc.
    repeat (constructor; [unfold isSextet; div_lia|]). auto.
Qed.

Lemma bytesOfSextets_OfBytes (bs : list Z) :
  Forall (fun b => isByte b = true) bs -> bytesOfSextets (sextetsOfBytes bs) = bs.
Proof.
  induction bs as [|a|a b|a b c r IH] using list_ind3; intros H.
  - reflexivity.
  - inversion_clear H as [|? ? Ha _]. apply isByte_range in Ha.
    simpl. f_equal. div_lia.
  - inversion_clear H as [|? ? Ha H']. inversion_clear H' as [|? ? Hb _].
    apply isByte_range in Ha, Hb.
    simpl. f_equal; [|f_equal]; div_lia.
  - inversion_clear H as [|? ? Ha H']. inversion_clear H' as [|? ? Hb H''].
    inversion_clear H'' as [|? ? Hc Hr].
    apply isByte_range in Ha, Hb, Hc.
    cbn [sextetsOfBytes app bytesOfSextets]. rewrite (IH Hr).
    f_equal; [|f_equal; [|f_equal]]; div_lia.
Qed.

(** Decoding a base64 text gives back the bytes it encodes. *)
Lemma fromBase64_toBase64 (bs : list Z) :
  Forall (fun b => isByte b = true) bs -> fromBase64 (toBase64 bs) = bs.
Proof.
  intros H. unfold fromBase64, toBase64.
  rewrite sextetsOfString_chars.
  - apply bytesOfSextets_OfBytes, H.
  - apply sextetsOfBytes_range, H.
  - unfold padding. destruct (Nat.modulo (List.length bs) 3) as [|[|[|k]]]; reflexivity.
Qed.

Lemma utf16_eq a b : a = b -> utf16 a = utf16 b.
Proof. congruence. Qed.

(** The decoder reads the bytes of a scalar value back as its code
    units, and is idle afterwards. *)
Lemma utf8DecodeFrom_encodeCodePoint cp rest :
  isScalar cp ->
  utf8DecodeFrom Idle (encodeCodePoint cp ++ rest)
  = utf16 cp ++ utf8DecodeFrom Idle rest.
Proof.
  intros Hcp. unfold isScalar in Hcp. unfold encodeCodePoint.
  destruct (Z.ltb_spec cp 128); [|destruct (Z.ltb_spec cp 2048); [|destruct (Z.ltb_spec cp 65536)]];
  run_decoder; (f_equal; [apply utf16_eq; div_lia]) || idtac.
  all: unfold utf16; repeat settle_test; reflexivity.
Qed.

Lemma encodeCodePoint_bytes cp :
  isScalar cp -> Forall (fun b => isByte b = true) (encodeCodePoint cp).
Proof.
  intros Hcp. unfold isScalar in Hcp. unfold encodeCodePoint.
  destruct (Z.ltb_spec cp 128); [|destruct (Z.ltb_spec cp 2048); [|destruct (Z.ltb_spec cp 65536)]];
    repeat constructor; apply isByte_range; div_lia.
Qed.

Lemma surrogate_tests (u : Z) :
  (isHighSurrogate u = true <-> 55296 <= u <= 56319)
  /\ (isLowSurrogate u = true <-> 56320 <= u <= 57343)
  /\ (isCodeUnit u = true <-> 0 <= u < 65536).
Proof.
  unfold isHighSurrogate, isLowSurrogate, isCodeUnit.
  rewrite !andb_true_iff, !Z.leb_le, Z.ltb_lt. tauto.
Qed.

(** Induction on well-formed strings: a code unit that is no surrogate, or
    a surrogate pair, in front of a well-formed string. *)
Lemma wellFormed_ind (P : jsstring -> Prop) :
  P [] ->
  (forall u t, 0 <= u < 55296 \/ 57344 <= u < 65536 ->
               isWellFormed t = true -> P t -> P (u :: t)) ->
  (forall hi lo t, 55296 <= hi <= 56319 -> 56320 <= lo <= 57343 ->
                   isWellFormed t = true -> P t -> P (hi :: lo :: t)) ->
  forall s, isWellFormed s = true -> P s.
Proof.
  intros Hnil Hunit Hpair.
  assert (H : forall n s, (List.length s <= n)%nat -> isWellFormed s = true -> P s).
  { induction n as [|n IH]; intros [|u t] Hlen Hwf; simpl in Hlen; try exact Hnil; [lia|].
    simpl in Hwf.
    destruct (isHighSurrogate u) eqn:Eh.
    - destruct t as [|v t']; [discriminate|].
      apply andb_true_iff in Hwf as [Hv Ht].
      apply surrogate_tests in Eh, Hv.
      apply Hpair; auto. apply IH; [simpl in Hlen; lia | exact Ht].
    - destruct (isLowSurrogate u) eqn:El; [discriminate|].
      apply andb_true_iff in Hwf as [Hu Ht].
      apply surrogate_tests in Hu.
      assert (~ 55296 <= u <= 56319)
        by (intros X; apply surrogate_tests in X; congruence).
      assert (~ 56320 <= u <= 57343)
        by (intros X; apply surrogate_tests in X; congruence).
      apply Hunit; [lia | exact Ht | apply IH; [lia | exact Ht]]. }
  intros s. apply (H (List.length s)). lia.
Qed.

Lemma utf8Encode_unit (u : Z) (t : jsstring) :
  0 <= u < 55296 \/ 57344 <= u < 65536 ->
  utf8Encode (u :: t) = encodeCodePoint u ++ utf8Encode t.
Proof.
  intros Hu. cbn [utf8Encode].
  replace (isHighSurrogate u) with false
    by (symmetry; apply not_true_is_false; intros X; apply surrogate_tests in X; lia).
  replace (isLowSurrogate u) with false
    by (symmetry; apply not_true_is_false; intros X; apply surrogate_tests in X; lia).
  reflexivity.
Qed.

Lemma utf8Encode_pair (hi lo : Z) (t : jsstring) :
  55296 <= hi <= 56319 -> 56320 <= lo <= 57343 ->
  utf8Encode (hi :: lo :: t)
  = encodeCodePoint (pairCodePoint hi lo) ++ utf8Encode t.
Proof.
  intros Hh Hl. cbn [utf8Encode].
  replace (isHighSurrogate hi) with true
    by (symmetry; apply surrogate_tests; lia).
  replace (isLowSurrogate lo) with true
    by (symmetry; apply surrogate_tests; lia).
  reflexivity.
Qed.

Lemma utf16_pairCodePoint (hi lo : Z) :
  55296 <= hi <= 56319 -> 56320 <= lo <= 57343 ->
  utf16 (pairCodePoint hi lo) = [hi; lo].
Proof.
  intros Hh Hl. unfold utf16, pairCodePoint.
  destruct (Z.ltb_spec (65536 + (hi - 55296) * 1024 + (lo - 56320)) 65536); [lia|].
  f_equal; [|f_equal]; div_lia.
Qed.

(** Decoding the UTF-8 bytes of a well-formed string gives it back. *)
Lemma utf8Decode_utf8Encode (s : jsstring) :
  isWellFormed s = true -> utf8Decode (utf8Encode s) = s.
Proof.
  unfold utf8Decode. intros Hwf. pattern s.
  apply wellFormed_ind; [| intros u t Hu _ IH | intros hi lo t Hh Hl _ IH | exact Hwf].
  - reflexivity.
  - rewrite utf8Encode_unit, utf8DecodeFrom_encodeCodePoint, IH by (unfold isScalar; lia).
    unfold utf16. destruct (Z.ltb_spec u 65536); [reflexivity | lia].
  - rewrite utf8Encode_pair, utf8DecodeFrom_encodeCodePoint, IH, utf16_pairCodePoint
      by (unfold isScalar, pairCodePoint; lia).
    reflexivity.
Qed.

Lemma utf8Encode_bytes (s : jsstring) :
  isWellFormed s = true -> Forall (fun b => isByte b = true) (utf8Encode s).
Proof.
  intros Hwf. pattern s.
  apply wellFormed_ind; [| intros u t Hu _ IH | intros hi lo t Hh Hl _ IH | exact Hwf].
  - constructor.
  - rewrite utf8Encode_unit by exact Hu.
    apply Forall_app; split; [apply encodeCodePoint_bytes; unfold isScalar; lia | exact IH].
  - rewrite utf8Encode_pair by assumption.
    apply Forall_app; split; [| exact IH].
    apply encodeCodePoint_bytes; unfold isScalar, pairCodePoint; lia.
Qed.

(** The decoder's step undoes the builder's encoding of a body. *)
Lemma decodeInline_base64OfString (s : jsstring) :
  isWellFormed s = true -> decodeInline (base64OfString s) = s.
Proof.
  intros Hwf. unfold decodeInline, base64OfString.
  rewrite fromBase64_toBase64 by (apply utf8Encode_bytes, Hwf).
  apply utf8Decode_utf8Encode, Hwf.
Qed.

(** C3, as the code has it. For every well-formed string [s] (no unpaired
    surrogate), also one whose UTF-8 encoding is multi-byte, the base64
    body line that [buildMimeMessage] emits for [textBody = s] is decoded
    by the decoder's base64 step to [s] exactly.  The line is the last one
    of a single-part message and the seventh from the end of a
    multipart/alternative one. *)
Theorem text_body_round_trip (env : Env) (o : MimeOptions) (s : jsstring) :
  isWellFormed s = true ->
  textBody o = Some s ->
  decodeInline (base64OfString s) = s
  /\ (truthyOpt (htmlBody o) = false ->
      last (mimeLines env o) [] = base64OfString s)
  /\ (bothBodies o = true ->
      nth_error (rev (mimeLines env o)) 6 = Some (base64OfString s)).
Proof.
  intros Hwf Ht. split; [apply decodeInline_base64OfString, Hwf|].
  unfold bothBodies, mimeLines. cbv zeta. rewrite Ht. unfold push.
  split.
  - intros ->. cbn [andb orEmpty]. apply last_last.
  - rewrite andb_comm. intros ->.
    rewrite !rev_app_distr. reflexivity.
Qed.

Lemma text_body_round_trip_witness :
  isWellFormed multiByteText = true
  /\ decodeInline
       (last (mimeLines someEnv
                (plainOptions (lit "b@x.com") (lit "Hi") multiByteText)) [])
     = multiByteText.
Proof.
  split; [reflexivity|].
  destruct (text_body_round_trip someEnv
              (plainOptions (lit "b@x.com") (lit "Hi") multiByteText)
              multiByteText eq_refl eq_refl) as [Hd [Hl _]].
  rewrite (Hl eq_refl). exact Hd.
Defined.

(** C3, as stated for every string, fails on an unpaired surrogate: the
    UTF-8 encoder writes U+FFFD for it, and that is what is read back. *)
Lemma lone_surrogate_not_round_tripped :
  last (mimeLines someEnv (plainOptions (lit "b@x.com") (lit "Hi") [55296])) []
    = base64OfString [55296]
  /\ decodeInline (base64OfString [55296]) = [65533]
  /\ decodeInline
       (last (mimeLines someEnv
                (plainOptions (lit "b@x.com") (lit "Hi") [55296])) [])
     <> [55296].
Proof.
  split; [reflexivity | split; [reflexivity|]].
  vm_compute. discriminate.
Qed.

(* ================================================================== *)
(** * HTML to text *)
(* ================================================================== *)

(** [String.fromCharCode] keeps the low sixteen bits of an exact
    Number. *)
Lemma fromCharCode_parsed (n : Z) :
  0 <= n < 2 ^ 53 -> fromCharCode (toNumber n) = [n mod 65536].
Proof.
  intros Hn. unfold fromCharCode, toNumber.
  destruct (Z.ltb_spec n (2 ^ 53)); [reflexivity | lia].
Qed.

(** Paragraph and line-break tags become line feeds, at most two in a
    row; the remaining tags are dropped. *)
Example stripHtml_paragraphs :
  stripHtml (lit "<p>Hello</p><br>World") = lit "Hello" ++ LF ++ LF ++ lit "World"
  /\ stripHtml (lit "<div>a</div><BR />b<span class=x>c</span>")
     = lit "a" ++ LF ++ LF ++ lit "bc".
Proof. split; reflexivity. Qed.

(** C6. The entity example of the specification holds, but a numeric
    character reference above U+FFFF is not decoded to its code point:
    [&#x1F600;] and [&#128512;] give the single code unit U+F600, where
    U+1F600 is the surrogate pair D83D DE00. *)
Theorem stripHtml_numeric_references :
  stripHtml (lit "A &amp; B &lt;tag&gt; &#65;") = lit "A & B <tag> A"
  /\ stripHtml (lit "&#x41;&#65;") = lit "AA"
  /\ stripHtml (lit "&#x1F600;") = [62976]
  /\ stripHtml (lit "&#128512;") = [62976]
  /\ utf16 128512 = [55357; 56832].
Proof. repeat split; vm_compute; reflexivity. Qed.

(* ================================================================== *)
(** * Header look-up *)
(* ================================================================== *)

Lemma getHeader_find (toLowerCase : jsstring -> jsstring)
    (hs : list MessagePartHeader) (n : jsstring) :
  getHeader toLowerCase (Some hs) n
  = match find (nameMatches toLowerCase n) hs with
    | Some h => value h
    | None => None
    end.
Proof. reflexivity. Qed.

(** X1. The look-up ignores case on both sides: two lists whose headers
    have the same values and the same names up to case, asked for two
    names that are the same up to case, give the same answer. *)
Theorem getHeader_case_insensitive
    (toLowerCase : jsstring -> jsstring)
    (hs1 hs2 : list MessagePartHeader) (n1 n2 : jsstring) :
  Forall2 (sameUpToCase toLowerCase) hs1 hs2 ->
  toLowerCase n1 = toLowerCase n2 ->
  getHeader toLowerCase (Some hs1) n1 = getHeader toLowerCase (Some hs2) n2.
Proof.
  intros H E. rewrite !getHeader_find.
  induction H as [|h1 h2 l1 l2 [Hv Hn] _ IH]; [reflexivity|].
  cbn [find].
  assert (Hm : nameMatches toLowerCase n1 h1 = nameMatches toLowerCase n2 h2).
  { unfold nameMatches.
    destruct (name h1), (name h2); simpl in Hn; try discriminate;
      [|reflexivity].
    injection Hn as ->. rewrite E. reflexivity. }
  rewrite Hm. destruct (nameMatches toLowerCase n2 h2); [exact Hv | exact IH].
Qed.

Lemma getHeader_case_insensitive_witness :
  getHeader asciiToLowerCase
    (Some [header "From" "s@x.com"; header "MESSAGE-Id" "<1@x>"])
    (lit "Message-ID")
  = getHeader asciiToLowerCase
      (Some [header "FROM" "s@x.com"; header "message-id" "<1@x>"])
      (lit "message-id").
Proof.
  apply (getHeader_case_insensitive asciiToLowerCase).
  - repeat constructor.
  - reflexivity.
Defined.

(** X2. The first header whose name matches decides the result, whatever
    follows it: its value is returned, and nothing when it has no value. *)
Theorem getHeader_first_match_wins
    (toLowerCase : jsstring -> jsstring)
    (before after : list MessagePartHeader) (h : MessagePartHeader)
    (n : jsstring) :
  existsb (nameMatches toLowerCase n) before = false ->
  nameMatches toLowerCase n h = true ->
  getHeader toLowerCase (Some (before ++ h :: after)) n = value h.
Proof.
  intros Hb Hh. rewrite getHeader_find.
  induction before as [|x before IH]; simpl in *.
  - rewrite Hh. reflexivity.
  - apply orb_false_iff in Hb as [Hx Hb]. rewrite Hx. apply IH, Hb.
Qed.

Lemma getHeader_first_match_wins_witness :
  getHeader asciiToLowerCase
    (Some ([header "From" "s@x.com"]
             ++ {| name := Some (lit "TO"); value := None |}
             :: [header "To" "a@x.com"]))
    (lit "To")
  = None.
Proof.
  apply (getHeader_first_match_wins asciiToLowerCase
           [header "From" "s@x.com"] [header "To" "a@x.com"]
           {| name := Some (lit "TO"); value := None |} (lit "To"));
    reflexivity.
Defined.

(** X3. Nothing is found in an absent list, nor in a list none of whose
    headers has a matching name; a header without a name never matches. *)
Theorem getHeader_not_found
    (toLowerCase : jsstring -> jsstring)
    (hs : option (list MessagePartHeader)) (n : jsstring) :
  existsb (nameMatches toLowerCase n)
    (match hs with Some l => l | None => [] end) = false ->
  getHeader toLowerCase hs n = None.
Proof.
  destruct hs as [l|]; [|reflexivity].
  intros Hb. rewrite getHeader_find.
  induction l as [|x l IH]; simpl in *; [reflexivity|].
  apply orb_false_iff in Hb as [Hx Hb]. rewrite Hx. apply IH, Hb.
Qed.

Lemma getHeader_not_found_witness :
  getHeader asciiToLowerCase
    (Some [header "From" "s@x.com"; {| name := None; value := Some (lit "x") |}])
    (lit "To")
  = None
  /\ getHeader asciiToLowerCase None (lit "To") = None.
Proof.
  split.
  - apply (getHeader_not_found asciiToLowerCase
             (Some [header "From" "s@x.com";
                    {| name := None; value := Some (lit "x") |}])).
    reflexivity.
  - apply (getHeader_not_found asciiToLowerCase None). reflexivity.
Defined.

(* ================================================================== *)
(** * Attachments and the detail of a message *)
(* ================================================================== *)

(** X4. Every record [extractAttachments] returns has a non-empty file
    name, a non-empty type and a non-empty identifier. *)
Theorem extractAttachments_complete (p : MessagePart) :
  forallb completeAttachment (extractAttachments p) = true.
Proof.
  induction p as [mt fn b|mt fn b l IH] using MessagePart_tree_ind.
  - cbn [extractAttachments].
    destruct (truthyOpt fn && truthyOpt (bodyAttachmentId b)) eqn:E;
      [|reflexivity].
    apply andb_true_iff in E as [Hf Ha].
    unfold completeAttachment; simpl.
    destruct fn as [[|? ?]|]; try discriminate.
    destruct (bodyAttachmentId b) as [[|? ?]|]; try discriminate.
    destruct mt as [[|? ?]|]; reflexivity.
  - cbn [extractAttachments].
    rewrite fold_left_append, forallb_app.
    apply andb_true_iff; split.
    + destruct (truthyOpt fn && truthyOpt (bodyAttachmentId b)) eqn:E;
        [|reflexivity].
      apply andb_true_iff in E as [Hf Ha].
      unfold completeAttachment; simpl.
      destruct fn as [[|? ?]|]; try discriminate.
      destruct (bodyAttachmentId b) as [[|? ?]|]; try discriminate.
      destruct mt as [[|? ?]|]; reflexivity.
    + induction IH as [|c l Hc _ IHl]; simpl; [reflexivity|].
      rewrite forallb_app, Hc, IHl. reflexivity.
Qed.

(** An HTML-only message: the body is the reduction of the HTML, which is
    kept as it is in [htmlBody]. *)
Example getEmail_html_only :
  option_map (fun e => (e_body e, e_htmlBody e, e_from e, e_to e))
    (getEmail asciiToLowerCase htmlOnlyMessage)
  = Some (lit "Hi", lit "<p>Hi</p>", lit "s@x.com", []).
Proof. reflexivity. Qed.


(* ================================================================== *)
(** * The HTML reducer on texts *)
(* ================================================================== *)

(** ** trim *)

Lemma trimStart_suffix (s : jsstring) :
  exists p, s = p ++ trimStart s /\ forallb isWhiteSpace p = true.
Proof.
  induction s as [|c s [p [IH Hp]]]; simpl.
  - exists []. auto.
  - destruct (isWhiteSpace c) eqn:E.
    + exists (c :: p). simpl. rewrite E, Hp. split; [congruence | reflexivity].
    + exists []. auto.
Qed.

Lemma trimStart_head (s : jsstring) (c : Z) (t : jsstring) :
  trimStart s = c :: t -> isWhiteSpace c = false.
Proof.
  induction s as [|x s IH]; simpl; [discriminate|].
  destruct (isWhiteSpace x) eqn:E; [exact IH|].
  intros H; inversion H; subst; exact E.
Qed.

(** What [trim] returns is a part of its argument. *)
Lemma trim_infix (s : jsstring) :
  exists p q, s = p ++ trim s ++ q.
Proof.
  unfold trim.
  destruct (trimStart_suffix s) as [p [Hp _]].
  destruct (trimStart_suffix (rev (trimStart s))) as [q [Hq _]].
  exists p, (rev q).
  rewrite <- rev_app_distr, <- Hq, rev_involutive. exact Hp.
Qed.

Lemma trim_edges (s : jsstring) :
  (forall c t, trim s = c :: t -> isWhiteSpace c = false)
  /\ (forall p c, trim s = p ++ [c] -> isWhiteSpace c = false).
Proof.
  unfold trim.
  destruct (trimStart_suffix (rev (trimStart s))) as [q [Hq _]].
  set (b := trimStart (rev (trimStart s))) in *.
  assert (Ha : trimStart s = rev b ++ rev q).
  { rewrite <- rev_app_distr, <- Hq, rev_involutive. reflexivity. }
  split.
  - intros c t Hc. rewrite Hc in Ha. simpl in Ha.
    apply trimStart_head in Ha. exact Ha.
  - intros p c Hc.
    assert (Hb : b = c :: rev p).
    { rewrite <- (rev_involutive b), Hc, rev_app_distr. reflexivity. }
    unfold b in Hb. apply trimStart_head in Hb. exact Hb.
Qed.

(** X6. What [stripHtml] returns neither starts nor ends with white
    space. *)
Theorem stripHtml_trimmed (html : jsstring) :
  isWhiteSpace (hd 0 (stripHtml html)) = false
  /\ isWhiteSpace (last (stripHtml html) 0) = false.
Proof.
  assert (H : exists s, stripHtml html = trim s)
    by (unfold stripHtml; cbv zeta; eexists; reflexivity).
  destruct H as [s ->]. destruct (trim_edges s) as [Hh Hl].
  destruct (trim s) as [|c t] eqn:E; [split; reflexivity|].
  split; [exact (Hh c t eq_refl)|].
  destruct (@exists_last _ (c :: t)) as [p [x Ex]]; [discriminate|].
  rewrite Ex, last_last. exact (Hl p x Ex).
Qed.

(** ** Runs of line feeds *)

Lemma replaceFrom_skip (m : matcher) (k : nat) (s : jsstring) :
  replaceFrom m k s = replaceFrom m 0 (skipn k s).
Proof.
  revert k; induction s as [|c s IH]; intros [|k]; simpl; try reflexivity.
  apply IH.
Qed.

(** A code unit compared with the literal of a pattern. *)
Lemma match_line_feed {A} (x : Z) (yes no : A) :
  match x with 10 => yes | _ => no end = if x =? 10 then yes else no.
Proof.
  destruct x as [|p|p]; try reflexivity.
  do 4 (try (destruct p as [p|p|]; try reflexivity)).
Qed.

Lemma lineFeeds_spec (s : jsstring) :
  lineFeeds s
  = if startsWith s [10; 10; 10]
    then Some (LF ++ LF, (3 + leadingLF (skipn 3 s))%nat)
    else None.
Proof.
  unfold lineFeeds, leadingLF.
  destruct s as [|a s]; [reflexivity|].
  cbn [startsWith]; cbv beta iota.
  rewrite match_line_feed, (Z.eqb_sym 10 a).
  destruct (a =? 10); cbn [andb]; [|reflexivity].
  destruct s as [|b s]; [reflexivity|].
  cbn [startsWith]; cbv beta iota.
  rewrite match_line_feed, (Z.eqb_sym 10 b).
  destruct (b =? 10); cbn [andb]; [|reflexivity].
  destruct s as [|c s]; [reflexivity|].
  cbn [startsWith]; cbv beta iota.
  rewrite match_line_feed, (Z.eqb_sym 10 c).
  destruct (c =? 10); reflexivity.
Qed.

Lemma leadingLF_cons (c : Z) (t : jsstring) :
  leadingLF (c :: t) = if c =? 10 then S (leadingLF t) else 0%nat.
Proof.
  unfold leadingLF; cbn [takeWhile]. rewrite (Z.eqb_sym 10 c).
  destruct (c =? 10); reflexivity.
Qed.

Lemma startsWith_triple (s : jsstring) :
  startsWith s [10; 10; 10] = (3 <=? leadingLF s)%nat.
Proof.
  destruct s as [|a [|b [|c t]]]; cbn [startsWith];
    rewrite ?leadingLF_cons, ?(Z.eqb_sym 10);
    try reflexivity.
  - destruct (a =? 10); reflexivity.
  - destruct (a =? 10), (b =? 10); reflexivity.
  - destruct (a =? 10), (b =? 10), (c =? 10); reflexivity.
Qed.

Lemma leadingLF_skipn (s : jsstring) : leadingLF (skipn (leadingLF s) s) = 0%nat.
Proof.
  induction s as [|c s IH]; [reflexivity|].
  rewrite leadingLF_cons. destruct (c =? 10) eqn:E.
  - simpl. exact IH.
  - simpl. rewrite leadingLF_cons, E. reflexivity.
Qed.

Lemma hasTripleLF_cons (c : Z) (t : jsstring) :
  hasTripleLF (c :: t) = (3 <=? leadingLF (c :: t))%nat || hasTripleLF t.
Proof. cbn [hasTripleLF]. rewrite startsWith_triple. reflexivity. Qed.

(** After the replacement no three line feeds are left in a row, and the
    text starts with as many line feeds as before, two at most. *)
Lemma lineFeeds_squeezed (n : nat) :
  forall s, (List.length s <= n)%nat ->
    hasTripleLF (replaceAll lineFeeds s) = false
    /\ leadingLF (replaceAll lineFeeds s) = Nat.min 2 (leadingLF s).
Proof.
  unfold replaceAll.
  induction n as [|n IH]; intros [|c t] Hlen; simpl in Hlen;
    try (split; reflexivity); [lia|].
  cbn [replaceFrom]. rewrite lineFeeds_spec, startsWith_triple.
  destruct (Nat.leb_spec 3 (leadingLF (c :: t))) as [H3|H3].
  - rewrite replaceFrom_skip.
    rewrite leadingLF_cons in H3.
    destruct (Z.eqb_spec c 10) as [->|]; [|lia].
    destruct t as [|b t]; [cbv in H3; lia|].
    rewrite leadingLF_cons in H3.
    destruct (Z.eqb_spec b 10) as [->|]; [|lia].
    destruct t as [|d t]; [cbv in H3; lia|].
    rewrite leadingLF_cons in H3.
    destruct (Z.eqb_spec d 10) as [->|]; [|lia].
    cbn [skipn Nat.add Nat.pred].
    destruct (IH (skipn (leadingLF t) t)) as [Hno Hlead].
    { pose proof (length_skipn (leadingLF t) t). simpl in Hlen. lia. }
    rewrite leadingLF_skipn in Hlead.
    change (LF ++ LF) with [10; 10]. cbn [app].
    rewrite !hasTripleLF_cons, !leadingLF_cons, Hno, Hlead.
    split; reflexivity.
  - destruct (IH t ltac:(lia)) as [Hno Hlead].
    rewrite hasTripleLF_cons, Hno, orb_false_r.
    assert (E : leadingLF (c :: replaceFrom lineFeeds 0 t) = leadingLF (c :: t)).
    { rewrite !leadingLF_cons. destruct (c =? 10) eqn:Ec; [|reflexivity].
      rewrite Hlead. rewrite leadingLF_cons, Ec in H3. lia. }
    rewrite E. split; [apply Nat.leb_gt; exact H3 | lia].
Qed.

Lemma startsWith_app (s q p : jsstring) :
  startsWith s p = true -> startsWith (s ++ q) p = true.
Proof.
  revert s; induction p as [|x p IH]; intros s H; [reflexivity|].
  destruct s as [|y s]; [discriminate|]. simpl in *.
  apply andb_true_iff in H as [-> H]. apply IH, H.
Qed.

Lemma hasTripleLF_infix (p x q : jsstring) :
  hasTripleLF (p ++ x ++ q) = false -> hasTripleLF x = false.
Proof.
  intros H.
  assert (Hxq : hasTripleLF (x ++ q) = false).
  { induction p as [|c p IH]; [exact H|].
    cbn [app hasTripleLF] in H. apply orb_false_iff in H as [_ H]. auto. }
  clear H. induction x as [|c x IH]; [reflexivity|].
  cbn [app hasTripleLF] in *. apply orb_false_iff in Hxq as [Hs Hx].
  rewrite (IH Hx), orb_false_r.
  apply not_true_is_false. intros E.
  apply (startsWith_app _ q) in E. simpl in E, Hs. congruence.
Qed.

(** X7. What [stripHtml] returns never has three line feeds in a row. *)
Theorem stripHtml_no_triple_line_feed (html : jsstring) :
  hasTripleLF (stripHtml html) = false.
Proof.
  unfold stripHtml. cbv zeta.
  set (s := replaceAll decReference _).
  destruct (trim_infix (replaceAll lineFeeds s)) as [p [q E]].
  apply (hasTripleLF_infix p _ q). rewrite <- E.
  apply (lineFeeds_squeezed (List.length s)). lia.
Qed.

(** ** Text without markup *)

(** A pattern that can only match at a given code unit leaves a text
    without that code unit as it is. *)
Lemma replaceAll_without_head (m : matcher) (k : Z) (s : jsstring) :
  (forall c t, c <> k -> m (c :: t) = None) ->
  ~ In k s -> replaceAll m s = s.
Proof.
  intros Hm. unfold replaceAll.
  induction s as [|c s IH]; intros Hk; [reflexivity|].
  cbn [replaceFrom]. rewrite Hm by (intros ->; apply Hk; left; reflexivity).
  rewrite IH by (intros H; apply Hk; right; exact H). reflexivity.
Qed.

Lemma literal_head (k : Z) (p r : jsstring) (c : Z) (t : jsstring) :
  c <> k -> literal (k :: p) r (c :: t) = None.
Proof.
  intros Hc. unfold literal. cbn [startsWith].
  destruct (Z.eqb_spec k c); [congruence | reflexivity].
Qed.

Lemma asciiLower_not_lt (c : Z) : c <> 60 -> (60 =? asciiLower c) = false.
Proof.
  intros Hc. unfold asciiLower.
  destruct ((65 <=? c) && (c <=? 90)) eqn:E.
  - apply andb_true_iff in E as [E1 E2]. apply Z.leb_le in E1, E2.
    apply Z.eqb_neq. lia.
  - apply Z.eqb_neq. lia.
Qed.

Lemma literalCI_head (p r : jsstring) (c : Z) (t : jsstring) :
  c <> 60 -> literalCI (60 :: p) r (c :: t) = None.
Proof.
  intros Hc. unfold literalCI. cbn [startsWithCI].
  rewrite asciiLower_not_lt by exact Hc. reflexivity.
Qed.

Lemma brTag_head (c : Z) (t : jsstring) : c <> 60 -> brTag (c :: t) = None.
Proof.
  intros Hc. unfold brTag.
  change (lit "<br") with [60; 98; 114]. cbn [startsWithCI].
  rewrite asciiLower_not_lt by exact Hc. reflexivity.
Qed.

Lemma match_less_than {A} (x : Z) (yes no : A) :
  match x with 60 => yes | _ => no end = if x =? 60 then yes else no.
Proof.
  destruct x as [|p|p]; try reflexivity.
  do 6 (try (destruct p as [p|p|]; try reflexivity)).
Qed.

Lemma match_ampersand {A} (x : Z) (yes no : A) :
  match x with 38 => yes | _ => no end = if x =? 38 then yes else no.
Proof.
  destruct x as [|p|p]; try reflexivity.
  do 6 (try (destruct p as [p|p|]; try reflexivity)).
Qed.

Lemma anyTag_head (c : Z) (t : jsstring) : c <> 60 -> anyTag (c :: t) = None.
Proof.
  intros Hc. unfold anyTag. cbv beta iota. rewrite match_less_than.
  destruct (Z.eqb_spec c 60); [contradiction | reflexivity].
Qed.

Lemma hexReference_head (c : Z) (t : jsstring) :
  c <> 38 -> hexReference (c :: t) = None.
Proof.
  intros Hc. unfold hexReference. cbv beta iota. rewrite match_ampersand.
  destruct (Z.eqb_spec c 38); [contradiction | reflexivity].
Qed.

Lemma decReference_head (c : Z) (t : jsstring) :
  c <> 38 -> decReference (c :: t) = None.
Proof.
  intros Hc. unfold decReference. cbv beta iota. rewrite match_ampersand.
  destruct (Z.eqb_spec c 38); [contradiction | reflexivity].
Qed.

Lemma lineFeeds_without_triple (s : jsstring) :
  hasTripleLF s = false -> replaceAll lineFeeds s = s.
Proof.
  unfold replaceAll. induction s as [|c s IH]; intros H; [reflexivity|].
  cbn [hasTripleLF] in H. apply orb_false_iff in H as [Hs Ht].
  cbn [replaceFrom]. rewrite lineFeeds_spec, Hs, (IH Ht). reflexivity.
Qed.

(** X8. A text without ['<'], without ['&'] and without three line feeds
    in a row is only trimmed. *)
Theorem stripHtml_plain_text (s : jsstring) :
  ~ In 60 s -> ~ In 38 s -> hasTripleLF s = false ->
  stripHtml s = trim s.
Proof.
  intros Hlt Hamp Hlf. unfold stripHtml. cbv zeta.
  rewrite (replaceAll_without_head brTag 60) by (auto using brTag_head).
  change (lit "</p>") with (60 :: lit "/p>").
  change (lit "</div>") with (60 :: lit "/div>").
  rewrite (replaceAll_without_head (literalCI (60 :: lit "/p>") (LF ++ LF)) 60)
    by (auto using literalCI_head).
  rewrite (replaceAll_without_head (literalCI (60 :: lit "/div>") LF) 60)
    by (auto using literalCI_head).
  rewrite (replaceAll_without_head anyTag 60) by (auto using anyTag_head).
  change (lit "&nbsp;") with (38 :: lit "nbsp;").
  change (lit "&amp;") with (38 :: lit "amp;").
  change (lit "&lt;") with (38 :: lit "lt;").
  change (lit "&gt;") with (38 :: lit "gt;").
  change (lit "&quot;") with (38 :: lit "quot;").
  change (lit "&apos;") with (38 :: lit "apos;").
  change (lit "&#39;") with (38 :: lit "#39;").
  repeat match goal with
         | |- context [replaceAll (literal (38 :: ?p) ?r) s] =>
             rewrite (replaceAll_without_head (literal (38 :: p) r) 38)
               by (auto using literal_head)
         end.
  rewrite (replaceAll_without_head hexReference 38)
    by (auto using hexReference_head).
  rewrite (replaceAll_without_head decReference 38)
    by (auto using decReference_head).
  rewrite lineFeeds_without_triple by exact Hlf.
  reflexivity.
Qed.

Lemma stripHtml_plain_text_witness :
  stripHtml (lit "  Dear all," ++ LF ++ LF ++ lit "see you at 10 > 9.  ")
  = lit "Dear all," ++ LF ++ LF ++ lit "see you at 10 > 9.".
Proof.
  rewrite (stripHtml_plain_text
             (lit "  Dear all," ++ LF ++ LF ++ lit "see you at 10 > 9.  ")).
  - reflexivity.
  - vm_compute. intuition discriminate.
  - vm_compute. intuition discriminate.
  - reflexivity.
Defined.

(** ** Numeric character references *)

Lemma replaceAll_cons_none (m : matcher) (c : Z) (t : jsstring) :
  m (c :: t) = None -> replaceAll m (c :: t) = c :: replaceAll m t.
Proof. unfold replaceAll. cbn [replaceFrom]. intros ->. reflexivity. Qed.

Lemma takeWhile_app_stop (f : Z -> bool) (ds : jsstring) (c : Z) (t : jsstring) :
  forallb f ds = true -> f c = false -> takeWhile f (ds ++ c :: t) = ds.
Proof.
  intros Hd Hc. induction ds as [|d ds IH]; simpl in *.
  - rewrite Hc. reflexivity.
  - apply andb_true_iff in Hd as [-> Hd]. rewrite (IH Hd). reflexivity.
Qed.

Lemma digits_without (ds : jsstring) (k : Z) :
  forallb isDecDigit ds = true -> isDecDigit k = false -> ~ In k ds.
Proof.
  intros Hd Hk Hin. rewrite forallb_forall in Hd.
  apply Hd in Hin. congruence.
Qed.

Lemma replaceFrom_all (m : matcher) (s : jsstring) :
  replaceFrom m (List.length s) s = [].
Proof. induction s as [|c s IH]; [reflexivity | exact IH]. Qed.

Lemma replaceAll_whole (m : matcher) (s r : jsstring) :
  s <> [] -> m s = Some (r, List.length s) -> replaceAll m s = r.
Proof.
  intros Hs H. unfold replaceAll. destruct s as [|c t].
  - contradiction.
  - cbn [replaceFrom]. rewrite H. cbn [List.length Nat.pred].
    rewrite replaceFrom_all, app_nil_r. reflexivity.
Qed.

Lemma decReference_match (ds t : jsstring) :
  ds <> [] -> forallb isDecDigit ds = true ->
  decReference (38 :: 35 :: ds ++ 59 :: t)
  = Some (fromCharCode (parseInt ds 10), (2 + List.length ds + 1)%nat).
Proof.
  intros Hne Hd. unfold decReference. cbv beta iota.
  rewrite (takeWhile_app_stop isDecDigit ds 59 t) by auto.
  destruct ds as [|d ds]; [contradiction|].
  cbn [List.length skipn app].
  rewrite skipn_app, Nat.sub_diag, skipn_all. reflexivity.
Qed.

Lemma decReference_alone (ds : jsstring) :
  ds <> [] -> forallb isDecDigit ds = true ->
  replaceAll decReference (decimalReference ds) = fromCharCode (parseInt ds 10).
Proof.
  intros Hne Hd. apply replaceAll_whole; [discriminate|].
  unfold decimalReference.
  change (lit "&#" ++ ds ++ lit ";") with (38 :: 35 :: ds ++ [59]).
  rewrite (decReference_match ds [] Hne Hd). do 2 f_equal.
  simpl. rewrite length_app. simpl. lia.
Qed.

Lemma literal_other_entity (x : Z) (p r rest : jsstring) :
  x <> 35 -> ~ In 38 rest ->
  replaceAll (literal (38 :: x :: p) r) (38 :: 35 :: rest) = 38 :: 35 :: rest.
Proof.
  intros Hx Hr.
  rewrite replaceAll_cons_none.
  - rewrite (replaceAll_without_head _ 38); [reflexivity | |].
    + intros c t Hc. apply literal_head, Hc.
    + intros [H|H]; [discriminate | contradiction].
  - unfold literal. cbn [startsWith].
    destruct (Z.eqb_spec x 35); [contradiction|].
    rewrite andb_false_r. reflexivity.
Qed.

Lemma match_letter_x {A} (x : Z) (yes no : A) :
  match x with 120 => yes | _ => no end = if x =? 120 then yes else no.
Proof.
  destruct x as [|p|p]; try reflexivity.
  do 7 (try (destruct p as [p|p|]; try reflexivity)).
Qed.

Lemma isDecDigit_range (d : Z) : isDecDigit d = true <-> 48 <= d <= 57.
Proof. unfold isDecDigit. rewrite andb_true_iff, !Z.leb_le. tauto. Qed.

Lemma hexReference_decimal (ds : jsstring) :
  ds <> [] -> forallb isDecDigit ds = true ->
  replaceAll hexReference (decimalReference ds) = decimalReference ds.
Proof.
  intros Hne Hd. unfold decimalReference.
  change (lit "&#" ++ ds ++ lit ";") with (38 :: 35 :: ds ++ [59]).
  rewrite replaceAll_cons_none.
  - rewrite (replaceAll_without_head hexReference 38);
      [reflexivity | apply hexReference_head |].
    intros [H|H]; [discriminate|].
    apply in_app_or in H as [H|[H|[]]]; [|discriminate].
    revert H. apply digits_without; [exact Hd | reflexivity].
  - destruct ds as [|d ds]; [contradiction|].
    simpl in Hd. apply andb_true_iff in Hd as [Hd _].
    apply isDecDigit_range in Hd.
    unfold hexReference. cbn [app]. cbv beta iota.
    rewrite match_letter_x.
    destruct (Z.eqb_spec d 120); [lia | reflexivity].
Qed.

Lemma apostrophe_literal (ds : jsstring) :
  forallb isDecDigit ds = true -> ds <> [51; 57] ->
  replaceAll (literal (lit "&#39;") (lit "'")) (decimalReference ds)
  = decimalReference ds.
Proof.
  intros Hd Hne. unfold decimalReference.
  change (lit "&#" ++ ds ++ lit ";") with (38 :: 35 :: ds ++ [59]).
  change (lit "&#39;") with [38; 35; 51; 57; 59].
  rewrite replaceAll_cons_none.
  - rewrite (replaceAll_without_head _ 38); [reflexivity | |].
    + intros c t Hc. apply literal_head, Hc.
    + intros [H|H]; [discriminate|].
      apply in_app_or in H as [H|[H|[]]]; [|discriminate].
      revert H. apply digits_without; [exact Hd | reflexivity].
  - unfold literal.
    replace (startsWith (38 :: 35 :: ds ++ [59]) [38; 35; 51; 57; 59])
      with false; [reflexivity|].
    symmetry. apply not_true_is_false. intros H. apply Hne.
    cbn [startsWith] in H. rewrite !Z.eqb_refl in H. cbn [andb] in H.
    destruct ds as [|a [|b [|c ds]]]; cbn [app startsWith] in H;
      repeat match goal with
             | G : _ && _ = true |- _ => apply andb_true_iff in G; destruct G
             | G : (_ =? _) = true |- _ => apply Z.eqb_eq in G
             end;
      try discriminate; subst.
    + reflexivity.
    + simpl in Hd. discriminate.
Qed.

(** X9. A decimal character reference standing alone is replaced by one
    code unit, the low sixteen bits of its number, and then trimmed: a
    code point above U+FFFF is not decoded to its surrogate pair. *)
Theorem stripHtml_decimal_reference (ds : jsstring) :
  ds <> [] -> forallb isDecDigit ds = true ->
  stripHtml (decimalReference ds) = trim [parseInt ds 10 mod 65536].
Proof.
  intros Hne Hd.
  destruct (list_eq_dec Z.eq_dec ds [51; 57]) as [->|Hap];
    [vm_compute; reflexivity|].
  assert (Hlt : ~ In 60 (decimalReference ds)).
  { unfold decimalReference.
    change (lit "&#" ++ ds ++ lit ";") with (38 :: 35 :: ds ++ [59]).
    intros [H|[H|H]]; try discriminate.
    apply in_app_or in H as [H|[H|[]]]; [|discriminate].
    revert H. apply digits_without; [exact Hd | reflexivity]. }
  assert (Hamp : ~ In 38 (ds ++ [59])).
  { intros H. apply in_app_or in H as [H|[H|[]]]; [|discriminate].
    revert H. apply digits_without; [exact Hd | reflexivity]. }
  unfold stripHtml. cbv zeta.
  rewrite (replaceAll_without_head brTag 60) by (auto using brTag_head).
  change (lit "</p>") with (60 :: lit "/p>").
  change (lit "</div>") with (60 :: lit "/div>").
  rewrite (replaceAll_without_head (literalCI (60 :: lit "/p>") (LF ++ LF)) 60)
    by (auto using literalCI_head).
  rewrite (replaceAll_without_head (literalCI (60 :: lit "/div>") LF) 60)
    by (auto using literalCI_head).
  rewrite (replaceAll_without_head anyTag 60) by (auto using anyTag_head).
  change (lit "&nbsp;") with (38 :: 110 :: lit "bsp;").
  change (lit "&amp;") with (38 :: 97 :: lit "mp;").
  change (lit "&lt;") with (38 :: 108 :: lit "t;").
  change (lit "&gt;") with (38 :: 103 :: lit "t;").
  change (lit "&quot;") with (38 :: 113 :: lit "uot;").
  change (lit "&apos;") with (38 :: 97 :: lit "pos;").
  unfold decimalReference at 1.
  change (lit "&#" ++ ds ++ lit ";") with (38 :: 35 :: ds ++ [59]).
  rewrite !literal_other_entity by (assumption || discriminate).
  change (38 :: 35 :: ds ++ [59]) with (decimalReference ds).
  rewrite (apostrophe_literal ds Hd Hap).
  rewrite (hexReference_decimal ds Hne Hd).
  rewrite (decReference_alone ds Hne Hd).
  rewrite lineFeeds_without_triple; [reflexivity|].
  unfold fromCharCode. cbn [hasTripleLF startsWith].
  rewrite andb_false_r. reflexivity.
Qed.

Lemma stripHtml_decimal_reference_witness :
  stripHtml (decimalReference (lit "128512")) = [62976].
Proof.
  rewrite (stripHtml_decimal_reference (lit "128512"));
    [reflexivity | discriminate | reflexivity].
Defined.






(* ================================================================== *)
(** * The transport-safe message *)
(* ================================================================== *)

Lemma withoutTrailingEq_snoc (s : jsstring) (c : Z) :
  withoutTrailingEq (s ++ [c])
  = if c =? 61 then withoutTrailingEq s else s ++ [c].
Proof. rewrite <- !stripTrailingEq_spec. apply stripTrailingEq_snoc. Qed.

Lemma withoutTrailingEq_padding (s : jsstring) (n : nat) :
  withoutTrailingEq (s ++ padding n) = withoutTrailingEq s.
Proof.
  unfold padding. destruct (Nat.modulo n 3) as [|[|[|k]]];
    rewrite ?app_nil_r; try reflexivity.
  - change [61; 61] with ([61] ++ [61]).
    rewrite app_assoc, !withoutTrailingEq_snoc. reflexivity.
  - rewrite withoutTrailingEq_snoc. reflexivity.
Qed.

Lemma withoutTrailingEq_id (s : jsstring) :
  ~ In 61 s -> withoutTrailingEq s = s.
Proof.
  induction s as [|c s IH] using rev_ind; intros H; [reflexivity|].
  rewrite withoutTrailingEq_snoc.
  destruct (Z.eqb_spec c 61) as [->|]; [|reflexivity].
  exfalso. apply H, in_or_app. right. left. reflexivity.
Qed.

Lemma base64Char_in_alphabet (v : Z) : In (base64Char v) alphabet.
Proof.
  unfold base64Char.
  destruct (Nat.lt_ge_cases (Z.to_nat v) (List.length alphabet)) as [Hlt|Hge].
  - apply nth_In, Hlt.
  - rewrite (nth_overflow _ _ Hge). vm_compute. tauto.
Qed.

(** A character of the alphabet, made transport-safe, is a transport
    character, not ['=']. *)
Lemma alphabet_transport (c : Z) :
  In c alphabet ->
  urlSafeChar c <> 61 /\ isTransportChar (urlSafeChar c) = true.
Proof.
  assert (H : forallb (fun c => negb (urlSafeChar c =? 61)
                                && isTransportChar (urlSafeChar c))
                alphabet = true) by (vm_compute; reflexivity).
  rewrite forallb_forall in H. intros Hc.
  apply H, andb_true_iff in Hc as [Hne Ht].
  apply negb_true_iff, Z.eqb_neq in Hne. auto.
Qed.

(** The value of a group of six bits is read back from its transport
    character. *)
Lemma base64Value_transport (v : Z) :
  0 <= v < 64 -> base64Value (urlSafeChar (base64Char v)) = Some v.
Proof.
  intros Hv. unfold base64Char.
  assert (Hn : (Z.to_nat v < 64)%nat) by lia.
  assert (E : v = Z.of_nat (Z.to_nat v)) by lia.
  revert Hn E. generalize (Z.to_nat v). intros n Hn ->.
  do 64 (destruct n as [|n]; [vm_compute; reflexivity |]).
  lia.
Qed.

(** The transport-safe form of the encoding of bytes: the characters of
    the groups of six bits, without padding. *)
Lemma urlSafe_toBase64 (bs : list Z) :
  urlSafe (toBase64 bs)
  = map (fun v => urlSafeChar (base64Char v)) (sextetsOfBytes bs).
Proof.
  rewrite urlSafe_spec. unfold toBase64.
  rewrite map_app, map_map.
  replace (map urlSafeChar (padding (List.length bs)))
    with (padding (List.length bs))
    by (unfold padding;
        destruct (Nat.modulo (List.length bs) 3) as [|[|[|k]]]; reflexivity).
  rewrite withoutTrailingEq_padding. apply withoutTrailingEq_id.
  intros H. apply in_map_iff in H as [v [Hv _]].
  destruct (alphabet_transport _ (base64Char_in_alphabet v)) as [Hne _].
  contradiction.
Qed.

Lemma sextetsOfString_transport (l : list Z) :
  Forall isSextet l ->
  sextetsOfString (map (fun v => urlSafeChar (base64Char v)) l) = l.
Proof.
  induction 1 as [|v l Hv _ IH]; simpl; [reflexivity|].
  destruct (alphabet_transport _ (base64Char_in_alphabet v)) as [Hne _].
  destruct (Z.eqb_spec (urlSafeChar (base64Char v)) 61); [contradiction|].
  rewrite (base64Value_transport v Hv), IH. reflexivity.
Qed.

(** The bytes are read back from the transport-safe text, although its
    alphabet differs and its padding is gone. *)
Lemma fromBase64_urlSafe (bs : list Z) :
  Forall (fun b => isByte b = true) bs ->
  fromBase64 (urlSafe (toBase64 bs)) = bs.
Proof.
  intros Hb. rewrite urlSafe_toBase64. unfold fromBase64.
  rewrite sextetsOfString_transport by (apply sextetsOfBytes_range, Hb).
  apply bytesOfSextets_OfBytes, Hb.
Qed.

(** X11. What [buildMimeMessage] returns consists of letters, digits, ['-']
    and ['_'] only: no ['='] is left, not inside the text either. *)
Theorem buildMimeMessage_alphabet (env : Env) (o : MimeOptions) :
  forallb isTransportChar (buildMimeMessage env o) = true.
Proof.
  unfold buildMimeMessage, base64OfString. cbv zeta.
  rewrite urlSafe_toBase64.
  apply forallb_forall. intros c Hc.
  apply in_map_iff in Hc as [v [<- _]].
  apply alphabet_transport, base64Char_in_alphabet.
Qed.

(** ** Well-formed messages *)

Lemma isWellFormed_app (a b : jsstring) :
  isWellFormed a = true -> isWellFormed b = true ->
  isWellFormed (a ++ b) = true.
Proof.
  intros Ha Hb. pattern a.
  apply wellFormed_ind; [| intros u t Hu _ IH | intros hi lo t Hh Hl _ IH | exact Ha].
  - exact Hb.
  - cbn [app isWellFormed].
    replace (isHighSurrogate u) with false
      by (symmetry; apply not_true_is_false; intros X;
          apply surrogate_tests in X; lia).
    replace (isLowSurrogate u) with false
      by (symmetry; apply not_true_is_false; intros X;
          apply surrogate_tests in X; lia).
    replace (isCodeUnit u) with true by (symmetry; apply surrogate_tests; lia).
    exact IH.
  - cbn [app isWellFormed].
    replace (isHighSurrogate hi) with true
      by (symmetry; apply surrogate_tests; lia).
    replace (isLowSurrogate lo) with true
      by (symmetry; apply surrogate_tests; lia).
    exact IH.
Qed.

Lemma belowSurrogates_wellFormed (s : jsstring) :
  belowSurrogates s -> isWellFormed s = true.
Proof.
  induction 1 as [|u t Hu _ IH]; [reflexivity|].
  cbn [isWellFormed].
  replace (isHighSurrogate u) with false
    by (symmetry; apply not_true_is_false; intros X;
        apply surrogate_tests in X; lia).
  replace (isLowSurrogate u) with false
    by (symmetry; apply not_true_is_false; intros X;
        apply surrogate_tests in X; lia).
  replace (isCodeUnit u) with true by (symmetry; apply surrogate_tests; lia).
  exact IH.
Qed.

Lemma lit_wellFormed (s : string) : isWellFormed (lit s) = true.
Proof.
  apply belowSurrogates_wellFormed. unfold belowSurrogates, lit.
  apply Forall_map, Forall_forall. intros a _.
  pose proof (N_ascii_bounded a). lia.
Qed.

Lemma toBase64_wellFormed (bs : list Z) : isWellFormed (toBase64 bs) = true.
Proof.
  apply belowSurrogates_wellFormed, Forall_forall. intros c Hc.
  apply toBase64_chars in Hc as [->|Hc]; [lia|].
  assert (H : forallb (fun c => (0 <=? c) && (c <? 55296)) alphabet = true)
    by (vm_compute; reflexivity).
  rewrite forallb_forall in H. apply H, andb_true_iff in Hc as [H1 H2].
  apply Z.leb_le in H1. apply Z.ltb_lt in H2. lia.
Qed.

Lemma join_wellFormed (sep : jsstring) (l : list jsstring) :
  isWellFormed sep = true ->
  Forall (fun x => isWellFormed x = true) l ->
  isWellFormed (join sep l) = true.
Proof.
  intros Hsep. induction 1 as [|x l Hx Hl IH]; [reflexivity|].
  destruct l as [|y l]; [exact Hx|].
  change (join sep (x :: y :: l)) with (x ++ sep ++ join sep (y :: l)).
  auto using isWellFormed_app.
Qed.

Lemma optionalHeader_wellFormed (label : string) (o : option jsstring) :
  isWellFormed (orEmpty o) = true ->
  Forall (fun x => isWellFormed x = true) (optionalHeader (lit label) o).
Proof.
  intros H. unfold optionalHeader. destruct o as [[|c v]|]; constructor;
    [|constructor].
  apply isWellFormed_app; [apply lit_wellFormed | exact H].
Qed.

(** With well-formed header fields every line is well formed: the bodies
    are base64 texts, whatever they hold. *)
Lemma mimeLines_wellFormed (env : Env) (o : MimeOptions) :
  wellFormedFields env o = true ->
  Forall (fun x => isWellFormed x = true) (mimeLines env o).
Proof.
  unfold wellFormedFields. rewrite !andb_true_iff.
  intros [[[[[[Hto Hsub] Hcc] Hbcc] Hirt] Href] Hrnd].
  assert (Hb : isWellFormed
                 (lit "----boundary_" ++ numberToString (now env) ++ lit "_"
                    ++ random36 env) = true).
  { unfold numberToString. auto using isWellFormed_app, lit_wellFormed. }
  assert (Hq : isWellFormed [34] = true) by reflexivity.
  assert (He : isWellFormed [] = true) by reflexivity.
  unfold mimeLines. cbv zeta. rewrite !pushIf_optionalHeader.
  unfold push, base64OfString.
  destruct (truthyOpt (htmlBody o) && truthyOpt (textBody o));
    [| destruct (truthyOpt (htmlBody o))];
    repeat (apply Forall_app; split);
    try (apply optionalHeader_wellFormed; assumption);
    try (constructor; [|constructor]);
    auto 8 using isWellFormed_app, lit_wellFormed, toBase64_wellFormed.
Qed.

(** X12. With well-formed header fields, whatever the bodies hold, the
    raw message decodes (base64url, then UTF-8) to the lines joined with
    CRLF, exactly. *)
Theorem buildMimeMessage_decodes (env : Env) (o : MimeOptions) :
  wellFormedFields env o = true ->
  decodeInline (buildMimeMessage env o) = join CRLF (mimeLines env o).
Proof.
  intros Hwf.
  assert (Hraw : isWellFormed (join CRLF (mimeLines env o)) = true)
    by (apply join_wellFormed; [reflexivity | apply mimeLines_wellFormed, Hwf]).
  unfold decodeInline, buildMimeMessage, base64OfString. cbv zeta.
  rewrite fromBase64_urlSafe by (apply utf8Encode_bytes, Hraw).
  apply utf8Decode_utf8Encode, Hraw.
Qed.

Lemma buildMimeMessage_decodes_witness :
  wellFormedFields someEnv htmlAndText = true
  /\ decodeInline (buildMimeMessage someEnv htmlAndText)
     = join CRLF (mimeLines someEnv htmlAndText).
Proof.
  split; [reflexivity|].
  apply (buildMimeMessage_decodes someEnv htmlAndText). reflexivity.
Defined.

(* ================================================================== *)
(** * The messages the client builds *)
(* ================================================================== *)

(** Outside the multipart case the lines do not depend on the clock and
    the random text. *)
Lemma mimeLines_single_part (env1 env2 : Env) (o : MimeOptions) :
  bothBodies o = false -> mimeLines env1 o = mimeLines env2 o.
Proof.
  unfold bothBodies, mimeLines. cbv zeta.
  rewrite (andb_comm (truthyOpt (htmlBody o))).
  intros ->. reflexivity.
Qed.

Lemma buildMimeMessage_single_part (env1 env2 : Env) (o : MimeOptions) :
  bothBodies o = false -> buildMimeMessage env1 o = buildMimeMessage env2 o.
Proof.
  intros H. unfold buildMimeMessage. cbv zeta.
  rewrite (mimeLines_single_part env1 env2 o H). reflexivity.
Qed.

(** X13. [sendEmail], [createDraft], [replyToEmail] and [forwardEmail]
    never pass both a text and an HTML body: the multipart branch of the
    builder is not reached from the client, and what they submit does not
    depend on the clock and the random text. *)
Theorem client_messages_single_part
    (toLowerCase : jsstring -> jsstring) (env1 env2 : Env)
    (to subject body : jsstring) (cc bcc : option jsstring)
    (isHtml replyAll : bool) (original : Message) (res : FullMessage) :
  sendEmail env1 to subject body cc bcc isHtml
  = sendEmail env2 to subject body cc bcc isHtml
  /\ createDraft env1 to subject body cc bcc isHtml
     = createDraft env2 to subject body cc bcc isHtml
  /\ replyToEmail toLowerCase env1 original body isHtml replyAll
     = replyToEmail toLowerCase env2 original body isHtml replyAll
  /\ forwardEmail toLowerCase env1 res to
     = forwardEmail toLowerCase env2 res to.
Proof.
  split; [|split; [|split]].
  - unfold sendEmail. f_equal. apply buildMimeMessage_single_part.
    unfold bothBodies, sendOptions; cbn [textBody htmlBody].
    destruct isHtml; [reflexivity | apply andb_false_r].
  - unfold createDraft. apply buildMimeMessage_single_part.
    unfold bothBodies; cbn [textBody htmlBody].
    destruct isHtml; [reflexivity | apply andb_false_r].
  - unfold replyToEmail. f_equal. apply buildMimeMessage_single_part.
    unfold replyOptions, bothBodies; cbn [textBody htmlBody].
    destruct isHtml; [reflexivity | apply andb_false_r].
  - unfold forwardEmail.
    destruct (getEmail toLowerCase res) as [email|]; [|reflexivity].
    rewrite (buildMimeMessage_single_part env1 env2 (forwardOptions email to));
      [reflexivity|].
    unfold bothBodies. apply andb_false_r.
Qed.



Lemma startsWith_refl_app (p s : jsstring) : startsWith (p ++ s) p = true.
Proof.
  induction p as [|c p IH]; [reflexivity|].
  simpl. rewrite Z.eqb_refl. exact IH.
Qed.

(** X15. The subject of a reply always starts with [Re:], and replying to
    a message whose subject is the subject of a reply leaves it as it is:
    the prefix is not stacked. *)
Theorem reply_subject_prefix
    (toLowerCase : jsstring -> jsstring) (original reply : Message)
    (body body' : jsstring) (isHtml isHtml' replyAll replyAll' : bool) :
  getHeader toLowerCase (headers reply) (lit "Subject")
  = Some (subject (replyOptions toLowerCase original body isHtml replyAll)) ->
  startsWith (subject (replyOptions toLowerCase original body isHtml replyAll))
             (lit "Re:") = true
  /\ subject (replyOptions toLowerCase reply body' isHtml' replyAll')
     = subject (replyOptions toLowerCase original body isHtml replyAll).
Proof.
  intros Hs.
  assert (H : startsWith
                (subject (replyOptions toLowerCase original body isHtml replyAll))
                (lit "Re:") = true).
  { unfold replyOptions; cbn [subject].
    set (os := orEmpty (getHeader toLowerCase (headers original) (lit "Subject"))).
    destruct (startsWith os (lit "Re:")) eqn:E; [exact E|].
    change (lit "Re: ") with (lit "Re:" ++ lit " ").
    rewrite <- app_assoc. apply startsWith_refl_app. }
  split; [exact H|].
  unfold replyOptions at 1; cbn [subject]. rewrite Hs. cbn [orEmpty].
  rewrite H. reflexivity.
Qed.

Lemma reply_subject_prefix_witness :
  subject (replyOptions asciiToLowerCase
             (originalWith [header "subject" "Re: Hi"]) (lit "ok") false false)
  = subject (replyOptions asciiToLowerCase
               (originalWith [header "Subject" "Hi"]) (lit "ok") true true).
Proof.
  apply (reply_subject_prefix asciiToLowerCase
           (originalWith [header "Subject" "Hi"])
           (originalWith [header "subject" "Re: Hi"])
           (lit "ok") (lit "ok") true false true false).
  reflexivity.
Defined.

(** X16. The subject of a forward always starts with [Fwd:], and
    forwarding a message whose subject is the subject of a forward leaves
    it as it is. *)
Theorem forward_subject_prefix (email forwarded : EmailDetail) (to to' : jsstring) :
  e_subject forwarded = subject (forwardOptions email to) ->
  startsWith (subject (forwardOptions email to)) (lit "Fwd:") = true
  /\ subject (forwardOptions forwarded to') = subject (forwardOptions email to).
Proof.
  intros Hs.
  assert (H : startsWith (subject (forwardOptions email to)) (lit "Fwd:") = true).
  { unfold forwardOptions; cbn [subject].
    destruct (startsWith (e_subject email) (lit "Fwd:")) eqn:E; [exact E|].
    change (lit "Fwd: ") with (lit "Fwd:" ++ lit " ").
    rewrite <- app_assoc. apply startsWith_refl_app. }
  split; [exact H|].
  unfold forwardOptions at 1; cbn [subject]. rewrite Hs, H. reflexivity.
Qed.

Lemma forward_subject_prefix_witness :
  subject (forwardOptions
             {| e_id := []; e_threadId := []; e_labelIds := []; e_from := [];
                e_to := []; e_cc := []; e_subject := lit "Fwd: Hi";
                e_date := []; e_body := []; e_htmlBody := [];
                e_attachments := [] |} (lit "c@x.com"))
  = subject (forwardOptions
               {| e_id := []; e_threadId := []; e_labelIds := []; e_from := [];
                  e_to := []; e_cc := []; e_subject := lit "Hi";
                  e_date := []; e_body := []; e_htmlBody := [];
                  e_attachments := [] |} (lit "b@x.com")).
Proof.
  apply (forward_subject_prefix
           {| e_id := []; e_threadId := []; e_labelIds := []; e_from := [];
              e_to := []; e_cc := []; e_subject := lit "Hi";
              e_date := []; e_body := []; e_htmlBody := [];
              e_attachments := [] |}
           {| e_id := []; e_threadId := []; e_labelIds := []; e_from := [];
              e_to := []; e_cc := []; e_subject := lit "Fwd: Hi";
              e_date := []; e_body := []; e_htmlBody := [];
              e_attachments := [] |}
           (lit "b@x.com") (lit "c@x.com")).
  reflexivity.
Defined.







(** X19. [createLabel] sends a colour exactly when one of the two colours
    is given and non-empty; the colour sent then has both components
    non-empty: a component that is given is kept, a missing one gets its
    default, black for the background and white for the text. *)
Theorem createLabel_color (name : jsstring) (background text : option jsstring) :
  match color (createLabelRequest name background text) with
  | None => truthyOpt background = false /\ truthyOpt text = false
  | Some c =>
      truthyOpt background || truthyOpt text = true
      /\ backgroundColor c
         = Some (if truthyOpt background then orEmpty background
                 else lit "#000000")
      /\ textColor c
         = Some (if truthyOpt text then orEmpty text else lit "#ffffff")
      /\ truthyOpt (backgroundColor c) = true
      /\ truthyOpt (textColor c) = true
  end.
Proof.
  unfold createLabelRequest. cbv zeta.
  destruct background as [[|? ?]|], text as [[|? ?]|]; simpl; auto 6.
Qed.
